(** * Docs Extractor API server: job tracking and polling

    A shallow embedding of the HTTP API server of the repository (the
    router with its in-memory [jobs] map and the background extraction
    task it launches), together with the properties of the asynchronous
    job protocol that the server implements.  The route that serves one
    generated file and the CORS middleware touch neither the job map nor
    the listing and are left out. *)

From Stdlib Require Import PrimFloat.
From stdpp Require Import base option list strings gmap.

(** ** Values read from the request *)

(** What [JSON.parse] returns for a request body.  A number is an IEEE
    double, as in JavaScript; an object keeps its members in source order. *)
#[warnings="-register-all"]
Inductive json :=
| JNull
| JBool (b : bool)
| JNum (d : float)
| JStr (s : string)
| JArr (items : list json)
| JObj (members : list (string * json)).

(** A JavaScript value that may be [undefined]: [None] is [undefined]. *)
Abbreviation jsval := (option json).

(** [!v] is [negb (truthy v)].  The falsy values are [undefined], [null],
    [false], [0], [-0], [NaN] and the empty string. *)
Definition truthy (v : jsval) : bool :=
  match v with
  | None => false
  | Some JNull => false
  | Some (JBool b) => b
  | Some (JNum d) => negb (PrimFloat.eqb d 0 || PrimFloat.is_nan d)
  | Some (JStr s) => negb (String.eqb s "")
  | Some (JArr _) => true
  | Some (JObj _) => true
  end.

(** Member lookup in a parsed object: when the text repeats a key,
    [JSON.parse] keeps the last occurrence. *)
Fixpoint member (k : string) (members : list (string * json)) : jsval :=
  match members with
  | [] => None
  | (k', v) :: rest =>
      match member k rest with
      | Some w => Some w
      | None => if String.eqb k k' then Some v else None
      end
  end.

(** The member [k] that a parsed body carries, if any: only an object
    carries members.  For a body other than [null] this is the value of
    [body.k] for the two keys the handler reads ([docsUrl],
    [extractionType]): on a string, number, boolean or array the property
    is [undefined]. *)
Definition get_field (body : json) (k : string) : jsval :=
  match body with
  | JObj members => member k members
  | _ => None
  end.

(** ** Exceptions *)

(** A thrown value: an [Error] with its [message]; or a value that is not
    an [Error], kept as the string that [String(value)] yields; or a value
    that is not an [Error] and for which [String(value)] itself throws (an
    object that has no usable [toString]). *)
Inductive thrown :=
| ErrorObj (message : string)
| NonError (shown : string)
| Unprintable.

(** The [TypeError] of a conversion to string that finds no usable
    [toString]. *)
Definition no_primitive : thrown :=
  ErrorObj "Cannot convert object to primitive value".

(** The result of a call that may throw, or of an awaited promise. *)
Inductive outcome (A : Type) :=
| Returned (a : A)
| Raised (e : thrown).
Arguments Returned {A} a.
Arguments Raised {A} e.

(** Sequencing inside a [try] block: the first exception ends the block. *)
#[global] Instance outcome_ret : MRet outcome := @Returned.
#[global] Instance outcome_bind : MBind outcome := λ A B k m,
  match m with
  | Returned a => k a
  | Raised e => Raised e
  end.

(** ** The job store

    [const jobs = new Map<string, { status; result?; error? }>()]. *)

Inductive job_status := processing | completed | failed.

Record job := Job {
  status : job_status;
  result : option json;     (* [None]: the record has no [result] member *)
  error : option string     (* [None]: the record has no [error] member *)
}.

Definition status_text (s : job_status) : string :=
  match s with
  | processing => "processing"
  | completed => "completed"
  | failed => "failed"
  end.

(** The four uses of the map in the server, under the names the design
    gives them.  Each write is [Map.prototype.set]: it binds the key to a
    new record whether or not the key was bound before. *)

(** [jobs.set(jobId, { status: "processing" })] *)
Definition create (jobs : gmap string job) (id : string) : gmap string job :=
  <[id := Job processing None None]> jobs.

(** [jobs.set(jobId, { status: "completed", result })] *)
Definition markCompleted (jobs : gmap string job) (id : string) (r : json)
  : gmap string job :=
  <[id := Job completed (Some r) None]> jobs.

(** [jobs.set(jobId, { status: "failed", error: ... })] *)
Definition markFailed (jobs : gmap string job) (id : string) (msg : string)
  : gmap string job :=
  <[id := Job failed None (Some msg)]> jobs.

(** [jobs.get(jobId)] *)
Definition get (jobs : gmap string job) (id : string) : option job :=
  jobs !! id.

(** ** Responses *)

Record doc := Doc { doc_name : string; doc_path : string }.

Inductive payload :=
| ErrorBody (message : string)                    (* [{ error }] *)
| AcceptedBody (jobId : string) (st : string)     (* [{ jobId, status }] *)
| JobBody (j : job)                               (* the job record *)
| DocsBody (docs : list doc).                     (* [{ docs }] *)

(** [code] is the status the handler assigns; [None] when it assigns none
    and the framework answers 200 for a response that has a body. *)
Record response := Response { code : option nat; body : payload }.

Definition status_code (r : response) : nat := default 200 (code r).

(** ** The background extraction task

    The [async] arrow function launched by the submit handler, cut at its
    three [await]s. *)

Inductive stage :=
| AwaitCreate        (* suspended at [await DocsExtractorAgent.create()] *)
| AwaitExtract       (* suspended at [await agent.extract(...)] *)
| AwaitCleanup       (* suspended at [await agent.cleanup()] *)
| Settled            (* the function returned: its promise is fulfilled *)
| Unhandled (e : thrown).  (* an exception left the function: its promise,
                              which nobody awaits, is rejected *)

Record task := Task {
  t_jobId : string;
  t_docsUrl : jsval;
  t_extractionType : jsval;
  t_stage : stage
}.

Definition set_stage (t : task) (s : stage) : task :=
  Task (t_jobId t) (t_docsUrl t) (t_extractionType t) s.

(** [async cleanup() {}] of [DocsExtractorAgent]: it has no statement, so
    the awaited promise is fulfilled. *)
Definition cleanup : outcome unit := Returned ().

(** [error instanceof Error ? error.message : String(error)], which
    throws when [String(error)] does. *)
Definition error_text (e : thrown) : outcome string :=
  match e with
  | ErrorObj message => Returned message
  | NonError shown => Returned shown
  | Unprintable => Raised no_primitive
  end.

(** What the environment delivers when an awaited promise settles. *)
Inductive settlement :=
| CreateSettled (o : outcome unit)     (* the agent is opaque here *)
| ExtractSettled (o : outcome json)
| CleanupSettled.

(** The part of the [try] block that runs when the task is resumed: the
    stage to suspend at next, or the exception that ends the block. *)
Definition try_block (t : task) (d : settlement) (jobs : gmap string job)
  : outcome stage * gmap string job :=
  match t_stage t, d with
  | AwaitCreate, CreateSettled o =>
      (_ ← o; mret AwaitExtract, jobs)
  | AwaitExtract, ExtractSettled (Returned r) =>
      (mret AwaitCleanup, markCompleted jobs (t_jobId t) r)
  | AwaitExtract, ExtractSettled (Raised e) =>
      (Raised e, jobs)
  | AwaitCleanup, CleanupSettled =>
      (_ ← cleanup; mret Settled, jobs)
  | s, _ => (mret s, jobs)      (* no promise of this task settles so *)
  end.

(** The [catch] block: log, then mark the job failed.  The record is
    built before [jobs.set] is called, so when building it throws the map
    is left as it was. *)
Definition catch_block (t : task) (e : thrown) (jobs : gmap string job)
  : outcome unit * gmap string job :=
  match error_text e with
  | Returned message => (mret (), markFailed jobs (t_jobId t) message)
  | Raised e' => (Raised e', jobs)
  end.

(** Resuming a suspended task with the settlement of the promise it awaits. *)
Definition resume (t : task) (d : settlement) (jobs : gmap string job)
  : task * gmap string job :=
  match try_block t d jobs with
  | (Returned s, jobs1) => (set_stage t s, jobs1)
  | (Raised e, jobs1) =>
      match catch_block t e jobs1 with
      | (Returned _, jobs2) => (set_stage t Settled, jobs2)
      | (Raised e', jobs2) => (set_stage t (Unhandled e'), jobs2)
      end
  end.

(** ** The server *)

Record server := Server {
  jobs : gmap string job;
  tasks : list task          (* the background tasks, in launch order *)
}.

Definition initial : server := Server ∅ [].

Definition MISSING_FIELDS : string :=
  "Missing required fields: docsUrl, extractionType".

(** [const { docsUrl, extractionType } = body]: destructuring [null] is a
    [TypeError]; any other value yields the two properties. *)
Definition destructure (b : json) : outcome (jsval * jsval) :=
  match b with
  | JNull =>
      Raised (ErrorObj
        "Cannot destructure property 'docsUrl' of 'body' as it is null.")
  | _ => mret (get_field b "docsUrl", get_field b "extractionType")
  end.

(** The [try] block of [POST /api/extract].  [read] is what
    [await ctx.request.body.json()] gives, [uuid] what
    [crypto.randomUUID()] returns when it is called. *)
Definition post_extract_try (srv : server) (read : outcome json)
    (uuid : string) : outcome (server * response) :=
  b ← read;
  '(docsUrl, extractionType) ← destructure b;
  if negb (truthy docsUrl) || negb (truthy extractionType) then
    mret (srv, Response (Some 400) (ErrorBody MISSING_FIELDS))
  else
    let jobId := uuid in
    let jobs1 := create (jobs srv) jobId in
    (* the task runs up to its first [await] and is left suspended *)
    let tasks1 := tasks srv ++ [Task jobId docsUrl extractionType AwaitCreate] in
    mret (Server jobs1 tasks1,
          Response None (AcceptedBody jobId "processing")).

(** [POST /api/extract], with its [catch]:
    [error instanceof Error ? error.message : "Internal server error"]. *)
Definition post_extract (srv : server) (read : outcome json) (uuid : string)
  : server * response :=
  match post_extract_try srv read uuid with
  | Returned r => r
  | Raised e =>
      (srv, Response (Some 500) (ErrorBody
              match e with
              | ErrorObj message => message
              | NonError _ | Unprintable => "Internal server error"
              end))
  end.

(** [GET /api/job/:jobId].  A record is an object, so [!job] holds only
    when the map has no entry. *)
Definition get_job (srv : server) (jobId : string) : response :=
  match get (jobs srv) jobId with
  | None => Response (Some 404) (ErrorBody "Job not found")
  | Some j => Response None (JobBody j)
  end.

(** ** Listing the generated documents *)

Record DirEntry := {
  name : string;
  isFile : bool;
  isDirectory : bool;
  isSymlink : bool
}.

(** One run of [for await (const entry of Deno.readDir(...))]: the entries
    the iterator yields, then either its end or an exception ([failure]),
    which may come before any entry. *)
Record dir_read := DirRead {
  yielded : list DirEntry;
  failure : option thrown
}.

(** [s.endsWith(suffix)]: the last [length suffix] characters of [s], when
    it has that many, are [suffix]. *)
Definition ends_with (s suffix : string) : bool :=
  let n := String.length s in
  let m := String.length suffix in
  if m <=? n then String.eqb (String.substring (n - m) m s) suffix else false.

(** The loop body: [docs.push(...)] for a file whose name ends in [.md]. *)
Definition visit (docs : list doc) (entry : DirEntry) : list doc :=
  if isFile entry && ends_with (name entry) ".md"
  then docs ++ [Doc (name entry) ("./generated-docs/" +:+ name entry)]
  else docs.

Definition get_docs_try (rd : dir_read) : outcome response :=
  let docs := foldl visit [] (yielded rd) in
  match failure rd with
  | Some e => Raised e
  | None => mret (Response None (DocsBody docs))
  end.

(** [GET /api/docs], with its [catch]. *)
Definition get_docs (rd : dir_read) : response :=
  match get_docs_try rd with
  | Returned r => r
  | Raised _ => Response None (DocsBody [])
  end.

(** ** Creating the agent: the environment check

    [getRequiredEnv] of the agent module; [!value] holds for a variable
    that is unset or empty. *)
Definition getRequiredEnv (env : gmap string string) (var : string)
  : outcome string :=
  match env !! var with
  | Some value =>
      if String.eqb value ""
      then Raised (ErrorObj ("Environment variable " +:+ var +:+ " is not set"))
      else mret value
  | None =>
      Raised (ErrorObj ("Environment variable " +:+ var +:+ " is not set"))
  end.

(** ** The event loop

    The server handles one event at a time: a request, or the settlement
    of the promise that background task [n] awaits. *)

Inductive event :=
| PostExtract (read : outcome json) (uuid : string)
| GetJob (jobId : string)
| GetDocs (rd : dir_read)
| Resume (n : nat) (d : settlement).

Definition resume_nth (srv : server) (n : nat) (d : settlement) : server :=
  match tasks srv !! n with
  | None => srv
  | Some t =>
      let '(t', jobs') := resume t d (jobs srv) in
      Server jobs' (<[n := t']> (tasks srv))
  end.

Definition handle (srv : server) (ev : event) : server * option response :=
  match ev with
  | PostExtract read uuid =>
      let '(srv', r) := post_extract srv read uuid in (srv', Some r)
  | GetJob jobId => (srv, Some (get_job srv jobId))
  | GetDocs rd => (srv, Some (get_docs rd))
  | Resume n d => (resume_nth srv n d, None)
  end.

Definition step (srv : server) (ev : event) : server := (handle srv ev).1.

Definition run (srv : server) (evs : list event) : server := foldl step srv evs.

(** A submission passes validation: the body is read, it is not [null],
    and both fields are truthy. *)
Definition accepted (read : outcome json) : bool :=
  match read with
  | Returned b =>
      match destructure b with
      | Returned (docsUrl, extractionType) =>
          truthy docsUrl && truthy extractionType
      | Raised _ => false
      end
  | Raised _ => false
  end.

(** The contract of [crypto.randomUUID()] at one event: the identifier it
    returns, when it is called, has no record yet. *)
Definition fresh_at (srv : server) (ev : event) : Prop :=
  match ev with
  | PostExtract read uuid => accepted read = true → jobs srv !! uuid = None
  | _ => True
  end.

(** The contract along a run. *)
Fixpoint fresh_ids (srv : server) (evs : list event) : Prop :=
  match evs with
  | [] => True
  | ev :: rest => fresh_at srv ev ∧ fresh_ids (step srv ev) rest
  end.

(** A record as the design wants it: a result exactly when completed, an
    error exactly when failed, neither while processing. *)
Definition well_formed (j : job) : bool :=
  match status j, result j, error j with
  | processing, None, None => true
  | completed, Some _, None => true
  | failed, None, Some _ => true
  | _, _, _ => false
  end.

Definition terminal (j : job) : bool :=
  match status j with
  | processing => false
  | completed | failed => true
  end.

Definition pending (t : task) : bool :=
  match t_stage t with
  | AwaitCreate | AwaitExtract => true
  | _ => false
  end.

(** ** The job store as the design document words it

    The same four operations with the guards the design asks for, to be
    compared with the writes of the server. *)
Module Design.

Inductive store_error :=
| DuplicateIdError
| NotFoundError
| InvalidTransitionError.

Definition create (jobs : gmap string job) (id : string)
  : store_error + gmap string job :=
  match jobs !! id with
  | Some _ => inl DuplicateIdError
  | None => inr (<[id := Job processing None None]> jobs)
  end.

Definition get (jobs : gmap string job) (id : string) : store_error + job :=
  match jobs !! id with
  | Some j => inr j
  | None => inl NotFoundError
  end.

Definition in_processing (jobs : gmap string job) (id : string) : bool :=
  match jobs !! id with
  | Some j => negb (terminal j)
  | None => false
  end.

Definition markCompleted (jobs : gmap string job) (id : string) (r : json)
  : store_error + gmap string job :=
  if in_processing jobs id
  then inr (<[id := Job completed (Some r) None]> jobs)
  else inl InvalidTransitionError.

Definition markFailed (jobs : gmap string job) (id : string) (msg : string)
  : store_error + gmap string job :=
  if in_processing jobs id
  then inr (<[id := Job failed None (Some msg)]> jobs)
  else inl InvalidTransitionError.

End Design.

(** ** Predicates used in the statements *)

(** The exception, if any, that a settlement throws into the task. *)
Definition thrown_into (s : stage) (d : settlement) : option thrown :=
  match s, d with
  | AwaitCreate, CreateSettled (Raised e) => Some e
  | AwaitExtract, ExtractSettled (Raised e) => Some e
  | _, _ => None
  end.

(** Every record of the store is well formed. *)
Definition records_ok (srv : server) : Prop :=
  map_Forall (λ _ j, well_formed j = true) (jobs srv).




(** The identifiers handed out along a run. *)
Fixpoint issued (evs : list event) : list string :=
  match evs with
  | [] => []
  | PostExtract read uuid :: rest =>
      if accepted read then uuid :: issued rest else issued rest
  | _ :: rest => issued rest
  end.

(** Every task writes to an identifier that has a record. *)
Definition tasks_owned (srv : server) : Prop :=
  Forall (λ t, is_Some (jobs srv !! t_jobId t)) (tasks srv).

(** While a task has not yet written, its job is in [processing], and no
    two such tasks share an identifier. *)
Definition single_writer (srv : server) : Prop :=
  (∀ n t, tasks srv !! n = Some t → pending t = true →
          jobs srv !! t_jobId t = Some (Job processing None None))
  ∧ (∀ n m t u, tasks srv !! n = Some t → tasks srv !! m = Some u →
                pending t = true → pending u = true →
                t_jobId t = t_jobId u → n = m).

(** The entries that are listed, and what is listed for each. *)
Definition is_markdown_file (entry : DirEntry) : bool :=
  isFile entry && ends_with (name entry) ".md".

Definition doc_of (entry : DirEntry) : doc :=
  Doc (name entry) ("./generated-docs/" +:+ name entry).

(** ** Sample inputs *)

Definition example_body : json :=
  JObj [("docsUrl", JStr "https://example.com");
        ("extractionType", JStr "overview")].

Definition example_uuid : string := "6f1c2a9e-5d0b-4c3e-9a77-2b8e4f0d1c35".

Definition other_uuid : string := "0b9d7c44-1e2f-4a6b-8c3d-5e7f9a1b2c3d".

(** What creating the agent throws when the API key is not set. *)
Definition missing_key : thrown :=
  match getRequiredEnv ∅ "ANTHROPIC_API_KEY" with
  | Raised e => e
  | Returned _ => NonError ""
  end.

(** A run in which the first job completes. *)
Definition until_completed : list event :=
  [ PostExtract (Returned example_body) example_uuid;
    Resume 0 (CreateSettled (Returned ()));
    PostExtract (Returned example_body) other_uuid;
    Resume 0 (ExtractSettled (Returned (JStr "# Title"))) ].

(** What may follow: a poll, the failure of the second job, the end of the
    first task, a third submission, a settlement that comes too late. *)
Definition afterwards : list event :=
  [ GetJob example_uuid;
    Resume 1 (CreateSettled (Raised missing_key));
    Resume 0 CleanupSettled;
    PostExtract (Returned example_body) "c2a4e6f8-0b1d-4f3a-9c5e-7a9b1d3f5e70";
    Resume 0 (ExtractSettled (Raised (ErrorObj "late"))) ].

Definition example_run : list event := until_completed ++ afterwards.

Definition example_dir : list DirEntry :=
  [ Build_DirEntry "extraction-2025-01-01T10-00-00-000Z.md" true false false;
    Build_DirEntry "notes.txt" true false false;
    Build_DirEntry "archive.md" false true false;
    Build_DirEntry ".md" true false false;
    Build_DirEntry "md" true false false;
    Build_DirEntry "link.md" false false true ].

(** Case analysis on the stage of a task and on the settlement it gets. *)
Ltac task_cases t d :=
  destruct t as [? ? ? []];
  destruct d as [[[] | [? | ? |]] | [? | [? | ? |]] |].

From Stdlib Require Import Ascii.

(** * The rest of the server

    ** Responses with headers, and the two pieces of the application that
    set them: the CORS middleware and the route that serves one document *)

(** A response body: an object sent as JSON, or a text. *)
Inductive content :=
| JsonContent (p : payload)
| TextContent (text : string).

(** [ctx.response] while the middleware chain runs: the headers the
    application has set so far, the status if one was assigned, the body
    if one was assigned. *)
Record reply := Reply {
  r_headers : gmap string string;
  r_status : option nat;
  r_body : option content
}.

(** The response of a fresh context. *)
Definition blank : reply := Reply ∅ None None.

(** The status sent in the end: the one assigned, else 200 for a response
    that has a body and 404 for one that has none. *)
Definition final_status (rep : reply) : nat :=
  match r_status rep, r_body rep with
  | Some c, _ => c
  | None, Some _ => 200
  | None, None => 404
  end.

(** What a handler of the job routes does to [ctx.response]: it assigns
    the body, and the status when it has one to assign. *)
Definition send (r : response) (rep : reply) : reply :=
  Reply (r_headers rep)
        (match code r with Some c => Some c | None => r_status rep end)
        (Some (JsonContent (body r))).

(** The file that [GET /api/docs/:filename] reads. *)
Definition doc_file (filename : string) : string :=
  "./generated-docs/" +:+ filename.

(** [GET /api/docs/:filename].  [readTextFile] is [Deno.readTextFile]. *)
Definition get_doc (readTextFile : string → outcome string) (filename : string)
    (rep : reply) : reply :=
  match readTextFile (doc_file filename) with
  | Returned text =>
      Reply (<["Content-Type" := "text/markdown"]> (r_headers rep))
            (r_status rep)
            (Some (TextContent text))
  | Raised _ =>
      Reply (r_headers rep) (Some 404)
            (Some (JsonContent (ErrorBody "Document not found")))
  end.

(** A request that the router dispatches to one of its four routes, with
    what the environment hands to the handler. *)
Inductive request :=
| PostExtractRequest (read : outcome json) (uuid : string)
| GetJobRequest (jobId : string)
| GetDocsRequest (rd : dir_read)
| GetDocRequest (filename : string).

(** [router.routes()]: the handler of the route runs on the context. *)
Definition router (readTextFile : string → outcome string) (req : request)
    (srv : server) (rep : reply) : server * reply :=
  match req with
  | PostExtractRequest read uuid =>
      let '(srv', r) := post_extract srv read uuid in (srv', send r rep)
  | GetJobRequest jobId => (srv, send (get_job srv jobId) rep)
  | GetDocsRequest rd => (srv, send (get_docs rd) rep)
  | GetDocRequest filename => (srv, get_doc readTextFile filename rep)
  end.

(** The three headers the CORS middleware sets, in its order. *)
Definition cors_headers (h : gmap string string) : gmap string string :=
  <["Access-Control-Allow-Headers" := "Content-Type, Authorization"]>
    (<["Access-Control-Allow-Methods" := "GET, POST, PUT, DELETE, OPTIONS"]>
       (<["Access-Control-Allow-Origin" := "*"]> h)).

(** The CORS middleware: [next] is the rest of the chain. *)
Definition cors (method : string) (next : server → reply → server * reply)
    (srv : server) (rep : reply) : server * reply :=
  let rep1 := Reply (cors_headers (r_headers rep)) (r_status rep) (r_body rep) in
  if String.eqb method "OPTIONS"
  then (srv, Reply (r_headers rep1) (Some 200) (r_body rep1))
  else next srv rep1.

(** The application: the middleware, then the router. *)
Definition app (readTextFile : string → outcome string) (method : string)
    (req : request) (srv : server) : server * reply :=
  cors method (router readTextFile req) srv blank.

(** * The agent module

    ** Creating the agent *)

(** [a || b] on strings that may be [undefined], ending in a string: the
    first that is set and not empty. *)
Definition or_else (v : option string) (fallback : string) : string :=
  match v with
  | Some s => if String.eqb s "" then fallback else s
  | None => fallback
  end.

(** What the module keeps of a created agent: the directory and the key it
    was configured with, and the MCP servers registered on it. *)
Record agent := Agent {
  zypherDir : string;
  apiKey : string;
  mcp_servers : list string
}.

(** [DocsExtractorAgent.create()].  [createZypherContext workingDir
    zypherDir] and [registerServer firecrawlKey] stand for the two awaited
    library calls; the registration sits in a [try] whose [catch] only
    logs.  Reading the environment and constructing the library's objects
    are taken not to throw. *)
Definition DocsExtractorAgent_create (env : gmap string string)
    (workingDir : string)
    (createZypherContext : string → string → outcome unit)
    (registerServer : string → outcome unit) : outcome agent :=
  let homeDir :=
    or_else (env !! "HOME") (or_else (env !! "USERPROFILE") workingDir) in
  _ ← createZypherContext workingDir (homeDir +:+ "/.zypher");
  key ← getRequiredEnv env "ANTHROPIC_API_KEY";
  let registered :=
    match k ← getRequiredEnv env "FIRECRAWL_API_KEY"; registerServer k with
    | Returned _ => ["firecrawl"]
    | Raised _ => []
    end in
  mret (Agent (homeDir +:+ "/.zypher") key registered).

(** The settlement the background task gets from the promise of [create]. *)
Definition create_settled (o : outcome agent) : settlement :=
  CreateSettled (_ ← o; mret ()).

(** ** Extraction: reading the agent's events *)

(** An event of the task stream, with the properties the loop reads. *)
Record agent_event := AgentEvent {
  e_type : jsval;
  e_content : jsval;
  e_tool : jsval;
  e_name : jsval;
  e_input : jsval
}.

(** [v?.k], and [v.k] where [v] is known to be an object: [undefined] on
    [undefined], [null] and on values that carry no member [k]. *)
Definition prop (v : jsval) (k : string) : jsval :=
  match v with
  | Some b => get_field b k
  | None => None
  end.

(** [a || b] *)
Definition js_or (a b : jsval) : jsval := if truthy a then a else b.

Record tool_use := ToolUse { tool_name : jsval; tool_input : jsval }.

(** The line feed. *)
Definition LF : string := String "010"%char "".

(** [replace(/[:.]/g, "-")] *)
Fixpoint dashed (s : string) : string :=
  match s with
  | EmptyString => EmptyString
  | String c rest =>
      String (if Ascii.eqb c ":" || Ascii.eqb c "." then "-"%char else c)
             (dashed rest)
  end.

(** The name under which an extraction made at [now] (the ISO text of the
    time) is saved. *)
Definition save_name (now : string) : string :=
  "extraction-" +:+ dashed now +:+ ".md".

(** One run of [for await (const event of eachValueFrom(event$))]: the
    events delivered, then the end of the stream or an exception. *)
Record event_stream := EventStream {
  emitted : list agent_event;
  stream_failure : option thrown
}.

(** The prompt that [extract] builds from the texts of its two
    arguments. *)
Definition prompt_of (docsUrl extractionType : string) : string :=
  "Extract from " +:+ docsUrl +:+ ": " +:+ extractionType +:+ LF +:+ LF
  +:+ "OUTPUT ONLY THE MARKDOWN DOCUMENT. No meta-commentary." +:+ LF +:+ LF
  +:+ "Start with:" +:+ LF
  +:+ "# [Title for " +:+ extractionType +:+ "]" +:+ LF
  +:+ "> Source: " +:+ docsUrl +:+ LF +:+ LF
  +:+ "Then include:" +:+ LF
  +:+ "- Installation/setup (if relevant)" +:+ LF
  +:+ "- Key concepts" +:+ LF
  +:+ "- 1-2 code examples" +:+ LF
  +:+ "- Links to original docs" +:+ LF +:+ LF
  +:+ "Keep it concise and practical. Output the document directly.".

Section Text.

(** The text of a number, [Number.prototype.toString]. *)
Variable number_text : float → string.

(** The string a value turns into when it is appended to a string, put in
    a template or joined.  An array joins the texts of its elements with
    commas, [null] elements giving the empty text.  An object gives
    ["[object Object]"] through the [toString] it inherits; when it has a
    member [toString] of its own, which hides the inherited one and is not
    a function, the conversion throws a [TypeError]. *)
Fixpoint to_text (v : json) : outcome string :=
  match v with
  | JNull => mret "null"
  | JBool true => mret "true"
  | JBool false => mret "false"
  | JNum d => mret (number_text d)
  | JStr s => mret s
  | JArr items =>
      texts ← (fix each (l : list json) : outcome (list string) :=
                 match l with
                 | [] => mret []
                 | x :: rest =>
                     t ← match x with JNull => mret "" | _ => to_text x end;
                     ts ← each rest;
                     mret (t :: ts)
                 end) items;
      mret (String.concat "," texts)
  | JObj members =>
      match member "toString" members with
      | Some _ => Raised no_primitive
      | None => mret "[object Object]"
      end
  end.

(** The text of a value in a template literal. *)
Definition template_text (v : jsval) : outcome string :=
  match v with
  | None => mret "undefined"
  | Some x => to_text x
  end.

(** The text of an array element in [join]. *)
Definition element_text (v : jsval) : outcome string :=
  match v with
  | None => mret ""
  | Some JNull => mret ""
  | Some x => to_text x
  end.

(** [items.join(sep)] *)
Definition join (sep : string) (items : list jsval) : outcome string :=
  texts ← mapM element_text items;
  mret (String.concat sep texts).

(** The body of the loop of [extract]: the [switch] on [event.type].
    Appending a text that is not a string converts it, which may throw. *)
Definition on_event (acc : string * list tool_use) (e : agent_event)
  : outcome (string * list tool_use) :=
  let '(responseText, toolUses) := acc in
  match e_type e with
  | Some (JStr t) =>
      if String.eqb t "text" || String.eqb t "message" then
        match prop (e_content e) "text" with
        | Some text =>
            if truthy (Some text) then
              appended ← to_text text;
              mret (responseText +:+ appended, toolUses)
            else
              match e_content e with
              | Some (JStr s) => mret (responseText +:+ s, toolUses)
              | _ => mret acc
              end
        | None =>
            match e_content e with
            | Some (JStr s) => mret (responseText +:+ s, toolUses)
            | _ => mret acc
            end
        end
      else if String.eqb t "tool_use" || String.eqb t "tool_use_input" then
        if truthy (prop (e_content e) "name") then
          mret (responseText,
                toolUses ++ [ToolUse (prop (e_content e) "name")
                                     (prop (e_content e) "input")])
        else if truthy (e_tool e) || truthy (e_name e) then
          let toolName := js_or (e_tool e) (e_name e) in
          let toolInput := js_or (e_input e) (e_content e) in
          mret (responseText, toolUses ++ [ToolUse toolName toolInput])
        else mret acc
      else mret acc
  | _ => mret acc
  end.

(** The loop over the events delivered: the first exception ends it. *)
Fixpoint gather (acc : string * list tool_use) (events : list agent_event)
  : outcome (string * list tool_use) :=
  match events with
  | [] => mret acc
  | e :: rest => acc' ← on_event acc e; gather acc' rest
  end.

(** A tool use as it is sent: a member that is [undefined] is left out of
    the JSON text. *)
Definition tool_use_json (u : tool_use) : json :=
  JObj (match tool_name u with Some n => [("name", n)] | None => [] end
        ++ match tool_input u with Some i => [("input", i)] | None => [] end).

(** The value [extract] returns. *)
Definition extract_result (responseText : string) (toolUses : list tool_use)
  : json :=
  JObj [("response",
         JObj [("content",
                JArr [JObj [("type", JStr "text");
                            ("text", JStr responseText)]])]);
        ("toolUses", JArr (map tool_use_json toolUses))].

(** Saving the text: nothing to do for an empty text; the [catch] around
    the write only logs.  The value is the list of writes attempted, as
    (path, content). *)
Definition save (writeTextFile : string → string → outcome unit)
    (now : string) (responseText : string) : list (string * string) :=
  if String.eqb responseText "" then []
  else
    let filename := save_name now in
    let filepath := "./generated-docs/" +:+ filename in
    match writeTextFile filepath responseText with
    | Returned _ => [(filepath, responseText)]
    | Raised _ => [(filepath, responseText)]
    end.

(** The template of the prompt: each argument is converted to its text. *)
Definition user_prompt (docsUrl extractionType : jsval) : outcome string :=
  u ← template_text docsUrl;
  x ← template_text extractionType;
  mret (prompt_of u x).

(** [agent.extract(docsUrl, extractionType, model)].  [runTask] is the
    agent's [runTask]: the stream of events it gives for a prompt and a
    model.  The value is the result or the exception, and the writes
    attempted. *)
Definition extract (docsUrl extractionType : jsval) (model : string)
    (runTask : string → string → event_stream) (now : string)
    (writeTextFile : string → string → outcome unit)
  : outcome json * list (string * string) :=
  match user_prompt docsUrl extractionType with
  | Raised e => (Raised e, [])
  | Returned userPrompt =>
      let s := runTask userPrompt model in
      match gather ("", []) (emitted s) with
      | Raised e => (Raised e, [])
      | Returned (responseText, toolUses) =>
          match stream_failure s with
          | Some e => (Raised e, [])
          | None =>
              (mret (extract_result responseText toolUses),
               save writeTextFile now responseText)
          end
      end
  end.

End Text.

(** Splitting a goal made of conjunctions, equivalences and case
    distinctions down to equations that [congruence] settles. *)
Ltac break_down :=
  repeat (intros;
          match goal with
          | |- _ ∧ _ => split
          | |- _ ↔ _ => split
          | H : _ ∨ _ |- _ => destruct H
          | H : ∃ _, _ |- _ => destruct H
          | H : _ ∧ _ |- _ => destruct H
          end);
  try discriminate; try congruence; eauto.


(** The directory given to the agent: under the first of [HOME],
    [USERPROFILE] that is set and not empty, else under the working
    directory. *)
Definition zypher_dir (env : gmap string string) (workingDir : string) : string :=
  or_else (env !! "HOME") (or_else (env !! "USERPROFILE") workingDir)
  +:+ "/.zypher".

(** An environment that has the key of the model provider only. *)
Definition example_env : gmap string string :=
  {[ "ANTHROPIC_API_KEY" := "sk-ant-test" ]}.

(** What the loop of [extract] has gathered at the end of the events. *)
Definition read_events (number_text : float → string)
    (events : list agent_event) : outcome (string * list tool_use) :=
  gather number_text ("", []) events.

(** The events whose type is one of [types]. *)
Definition type_in (types : list string) (e : agent_event) : bool :=
  match e_type e with
  | Some (JStr t) => existsb (String.eqb t) types
  | _ => false
  end.

Definition is_text_event : agent_event → bool := type_in ["text"; "message"].

Definition is_tool_event : agent_event → bool :=
  type_in ["tool_use"; "tool_use_input"].


(** The model the server asks for. *)
Definition MODEL : string := "claude-sonnet-4-20250514".

(** A number text for the examples, which hold no number. *)
Definition no_numbers (d : float) : string := "".

(** A stream in which the agent calls a tool and then answers. *)
Definition example_stream : event_stream :=
  EventStream
    [ AgentEvent (Some (JStr "tool_use"))
                 (Some (JObj [("name", JStr "firecrawl_scrape");
                              ("input", JObj [("url", JStr "https://example.com")])]))
                 None None None;
      AgentEvent (Some (JStr "tool_result")) (Some (JStr "<html>")) None None None;
      AgentEvent (Some (JStr "text")) (Some (JStr "# Title")) None None None;
      AgentEvent (Some (JStr "message"))
                 (Some (JObj [("text", JStr " and more")])) None None None ]
    None.

(** A stream in which one text of the answer is an object that has a
    member [toString] of its own. *)
Definition unprintable_stream : event_stream :=
  EventStream
    [ AgentEvent (Some (JStr "text")) (Some (JStr "# Title")) None None None;
      AgentEvent (Some (JStr "text"))
                 (Some (JObj [("text", JObj [("toString", JStr "x")])]))
                 None None None ]
    None.


(** * The browser client

    ** What the client receives *)

(** A number that JSON text can carry. *)
Definition finite (d : float) : bool :=
  negb (PrimFloat.is_nan d || PrimFloat.is_infinity d).

(** [JSON.parse(JSON.stringify(v))]: what the client reads of a value the
    server sends.  A number that is not finite arrives as [null], and the
    negative zero as zero. *)
Fixpoint wire (v : json) : json :=
  match v with
  | JNum d =>
      if finite d then (if PrimFloat.eqb d 0 then JNum 0 else JNum d)
      else JNull
  | JArr items => JArr (map wire items)
  | JObj members => JObj (map (λ kv, (kv.1, wire kv.2)) members)
  | _ => v
  end.

(** The object the server sends for a job record: the members a record
    lacks are left out. *)
Definition job_json (j : job) : json :=
  JObj ([("status", JStr (status_text (status j)))]
        ++ match result j with Some r => [("result", r)] | None => [] end
        ++ match error j with Some m => [("error", JStr m)] | None => [] end).

Definition doc_json (d : doc) : json :=
  JObj [("name", JStr (doc_name d)); ("path", JStr (doc_path d))].

(** The object behind each body of the job routes. *)
Definition payload_json (p : payload) : json :=
  match p with
  | ErrorBody message => JObj [("error", JStr message)]
  | AcceptedBody jobId st => JObj [("jobId", JStr jobId); ("status", JStr st)]
  | JobBody j => job_json j
  | DocsBody docs => JObj [("docs", JArr (map doc_json docs))]
  end.

(** What [await response.json()] gives the client for a response of the
    server. *)
Definition received (r : response) : json := wire (payload_json (body r)).

(** [response.ok] *)
Definition ok (st : nat) : bool := (200 <=? st) && (st <=? 299).

(** ** What the client does

    The calls a handler of the component makes, in order: the state
    setters, [clearInterval(pollInterval)] and [loadGeneratedDocs()]. *)
Inductive call :=
| SetLoading (b : bool)
| SetError (v : jsval)
| SetResult (v : jsval)
| SetJobId (v : jsval)
| SetGeneratedDocs (v : jsval)
| ClearInterval
| LoadGeneratedDocs.

(** The body the form sends: [JSON.stringify({ docsUrl, extractionType })]
    as the server parses it. *)
Definition submit_body (docsUrl extractionType : string) : json :=
  JObj [("docsUrl", JStr docsUrl); ("extractionType", JStr extractionType)].

(** A [TypeError] whose message, which depends on the engine, is only
    logged. *)
Definition logged_type_error : thrown := ErrorObj "TypeError".

Section Client.

(** The text of a number, and the message of the [TypeError] that the
    browser throws on reading a property of [null]. *)
Variable number_text : float → string.
Variable null_read_message : string → string.

(** [content.filter(item => item.type === 'text').map(item => item.text)]:
    a [content] that is not an array has no [filter], and reading [type]
    of a [null] item throws. *)
Definition text_items (content : json) : outcome (list jsval) :=
  match content with
  | JArr items =>
      if existsb (λ item, match item with JNull => true | _ => false end) items
      then Raised logged_type_error
      else
        mret (map (λ item, get_field item "text")
                (List.filter
                   (λ item, match get_field item "type" with
                            | Some (JStr t) => String.eqb t "text"
                            | _ => false
                            end)
                   items))
  | _ => Raised logged_type_error
  end.

(** The [try] block of the polling callback: the calls made, and how the
    block ends.  [got] is what [fetch] and [response.json()] give. *)
Definition poll_try (got : outcome json) : list call * outcome unit :=
  match got with
  | Raised e => ([], Raised e)
  | Returned JNull => ([], Raised logged_type_error)
  | Returned job =>
      match get_field job "status" with
      | Some (JStr st) =>
          if String.eqb st "completed" then
            let calls := [ClearInterval; SetLoading false] in
            let content :=
              prop (prop (get_field job "result") "response") "content" in
            match content with
            | Some c =>
                if truthy content then
                  match text_items c with
                  | Returned texts =>
                      match join number_text (LF +:+ LF) texts with
                      | Returned textContent =>
                          (calls ++ [SetResult (Some (JStr textContent));
                                     SetJobId (Some JNull); LoadGeneratedDocs],
                           mret ())
                      | Raised e => (calls, Raised e)
                      end
                  | Raised e => (calls, Raised e)
                  end
                else (calls ++ [SetJobId (Some JNull); LoadGeneratedDocs], mret ())
            | None => (calls ++ [SetJobId (Some JNull); LoadGeneratedDocs], mret ())
            end
          else if String.eqb st "failed" then
            ([ClearInterval; SetLoading false;
              SetError (js_or (get_field job "error")
                              (Some (JStr "Extraction failed")));
              SetJobId (Some JNull)],
             mret ())
          else ([], mret ())
      | _ => ([], mret ())
      end
  end.

(** The polling callback: its [catch] only logs. *)
Definition poll_tick (got : outcome json) : list call := (poll_try got).1.

(** The [try] block of [handleSubmit]: the calls it makes, all after the
    last point where it can throw.  [exchange] is what [fetch] gives: the
    status, and what [response.json()] gives. *)
Definition handleSubmit_try (exchange : outcome (nat * outcome json))
  : outcome (list call) :=
  '(st, parsed) ← exchange;
  if negb (ok st) then Raised (ErrorObj "Failed to start extraction")
  else
    data ← parsed;
    match data with
    | JNull => Raised (ErrorObj (null_read_message "jobId"))
    | _ => mret [SetJobId (get_field data "jobId")]
    end.

(** [handleSubmit], with its [catch]:
    [err instanceof Error ? err.message : 'An error occurred']. *)
Definition handleSubmit (exchange : outcome (nat * outcome json)) : list call :=
  [SetLoading true; SetError (Some JNull); SetResult (Some JNull)]
  ++ match handleSubmit_try exchange with
     | Returned calls => calls
     | Raised e =>
         [SetLoading false;
          SetError (Some (JStr match e with
                               | ErrorObj message => message
                               | NonError _ | Unprintable => "An error occurred"
                               end))]
     end.

(** [loadGeneratedDocs]: [setGeneratedDocs(data.docs || [])]; its [catch]
    only logs. *)
Definition loadGeneratedDocs (got : outcome json) : list call :=
  match got with
  | Raised _ => []
  | Returned JNull => []
  | Returned data =>
      [SetGeneratedDocs (js_or (get_field data "docs") (Some (JArr [])))]
  end.

End Client.

(** * Properties *)

(** ** Submission *)

Lemma post_extract_accepted srv b uuid :
  truthy (get_field b "docsUrl") = true →
  truthy (get_field b "extractionType") = true →
  post_extract srv (Returned b) uuid =
    (Server (create (jobs srv) uuid)
            (tasks srv ++ [Task uuid (get_field b "docsUrl")
                                (get_field b "extractionType") AwaitCreate]),
     Response None (AcceptedBody uuid "processing")).
Proof.
  intros Hu Ht.
  destruct b; try discriminate Hu.
  unfold post_extract, post_extract_try; simpl.
  simpl in Hu, Ht. rewrite Hu, Ht. reflexivity.
Qed.

Lemma post_extract_rejected srv b uuid :
  b ≠ JNull →
  truthy (get_field b "docsUrl") = false
  ∨ truthy (get_field b "extractionType") = false →
  post_extract srv (Returned b) uuid =
    (srv, Response (Some 400) (ErrorBody MISSING_FIELDS)).
Proof.
  intros Hnull Hfalsy.
  assert (Hcheck : negb (truthy (get_field b "docsUrl"))
                   || negb (truthy (get_field b "extractionType")) = true).
  { destruct Hfalsy as [-> | ->]; [reflexivity | apply orb_true_r]. }
  unfold post_extract, post_extract_try.
  destruct b; try congruence; simpl in *; rewrite ?Hcheck; reflexivity.
Qed.

Lemma accepted_fields b :
  accepted (Returned b) = true →
  truthy (get_field b "docsUrl") = true
  ∧ truthy (get_field b "extractionType") = true.
Proof.
  unfold accepted. destruct b; simpl; try discriminate;
    intros H; apply andb_true_iff in H; exact H.
Qed.

(** A submission that does not pass validation leaves the server as it was. *)
Lemma post_extract_not_accepted srv read uuid :
  accepted read = false → (post_extract srv read uuid).1 = srv.
Proof.
  intros Hacc. destruct read as [b | e]; [| reflexivity].
  destruct b; try reflexivity;
    (rewrite post_extract_rejected; [reflexivity | discriminate |]);
    unfold accepted in Hacc; simpl in *;
    apply andb_false_iff in Hacc; exact Hacc.
Qed.

(** C1. A valid submission (both [docsUrl] and [extractionType] pass the
    handler's check) binds the generated identifier to a record in
    [processing], answers with that identifier and status ["processing"],
    and leaves the extraction task suspended at its first [await]: the
    answer does not depend on any outcome of the external operation.  A
    status query right after it reports [processing], with no result and
    no error. *)
Theorem submit_registers_processing_job (srv : server) (b : json) (uuid : string) :
  truthy (get_field b "docsUrl") = true →
  truthy (get_field b "extractionType") = true →
  ∃ srv',
    handle srv (PostExtract (Returned b) uuid)
      = (srv', Some (Response None (AcceptedBody uuid (status_text processing))))
    ∧ jobs srv' = create (jobs srv) uuid
    ∧ jobs srv' !! uuid = Some (Job processing None None)
    ∧ tasks srv' = tasks srv ++ [Task uuid (get_field b "docsUrl")
                                      (get_field b "extractionType") AwaitCreate]
    ∧ handle srv' (GetJob uuid)
      = (srv', Some (Response None (JobBody (Job processing None None)))).
Proof.
  intros Hu Ht. eexists. simpl.
  rewrite (post_extract_accepted srv b uuid Hu Ht).
  split; [reflexivity |]. simpl.
  assert (Hget : create (jobs srv) uuid !! uuid = Some (Job processing None None))
    by apply lookup_insert_eq.
  repeat split; try assumption.
  unfold get_job, get; simpl. rewrite Hget. reflexivity.
Qed.

Lemma submit_registers_processing_job_witness :
  ∃ srv',
    handle initial (PostExtract (Returned example_body) example_uuid)
      = (srv', Some (Response None (AcceptedBody example_uuid "processing")))
    ∧ jobs srv' = create ∅ example_uuid
    ∧ jobs srv' !! example_uuid = Some (Job processing None None)
    ∧ tasks srv' = [Task example_uuid (Some (JStr "https://example.com"))
                         (Some (JStr "overview")) AwaitCreate]
    ∧ handle srv' (GetJob example_uuid)
      = (srv', Some (Response None (JobBody (Job processing None None)))).
Proof.
  apply (submit_registers_processing_job initial example_body example_uuid);
    reflexivity.
Defined.

(** C6, as the server has it.  A submission whose body is not [null] and
    lacks [docsUrl] or [extractionType] is answered at once with status 400
    and the fixed message that names both required fields, whichever is
    missing.  The server is left as it was: no record, no task.  So a
    status query for an identifier that had no record still finds none,
    and on an empty store that is every identifier. *)
Theorem missing_field_rejected (srv : server) (b : json) (uuid : string) :
  b ≠ JNull →
  get_field b "docsUrl" = None ∨ get_field b "extractionType" = None →
  handle srv (PostExtract (Returned b) uuid)
    = (srv, Some (Response (Some 400)
         (ErrorBody "Missing required fields: docsUrl, extractionType")))
  ∧ (∀ id, jobs srv !! id = None →
       get_job srv id = Response (Some 404) (ErrorBody "Job not found"))
  ∧ (jobs srv = ∅ →
       ∀ id, get_job srv id = Response (Some 404) (ErrorBody "Job not found")).
Proof.
  intros Hnull Hmiss. split; [| split].
  - simpl. rewrite post_extract_rejected; [reflexivity | assumption |].
    destruct Hmiss as [-> | ->]; [left | right]; reflexivity.
  - intros id Hid. unfold get_job, get. rewrite Hid. reflexivity.
  - intros Hempty id. unfold get_job, get. rewrite Hempty, lookup_empty.
    reflexivity.
Qed.

Lemma missing_field_rejected_witness :
  handle initial (PostExtract (Returned (JObj [])) example_uuid)
    = (initial, Some (Response (Some 400)
         (ErrorBody "Missing required fields: docsUrl, extractionType")))
  ∧ (∀ id, jobs initial !! id = None →
       get_job initial id = Response (Some 404) (ErrorBody "Job not found"))
  ∧ (jobs initial = ∅ →
       ∀ id, get_job initial id = Response (Some 404) (ErrorBody "Job not found")).
Proof.
  apply (missing_field_rejected initial (JObj []) example_uuid);
    [discriminate | left; reflexivity].
Defined.

(** The message is the same whichever field is missing, and records that
    were there before the rejected submission are still served. *)
Example one_field_missing :
  let srv := run initial until_completed in
  handle srv (PostExtract
                (Returned (JObj [("docsUrl", JStr "https://example.com")]))
                other_uuid)
    = (srv, Some (Response (Some 400)
         (ErrorBody "Missing required fields: docsUrl, extractionType")))
  ∧ get_job srv example_uuid
    = Response None (JobBody (Job completed (Some (JStr "# Title")) None)).
Proof. split; vm_compute; reflexivity. Qed.

(** C6, as stated, fails on the body [null]: it carries neither field, and
    the answer is the handler's catch-all status 500 with the message of
    the [TypeError], not the validation answer. *)
Lemma null_body_not_validation_error :
  get_field JNull "docsUrl" = None
  ∧ get_field JNull "extractionType" = None
  ∧ (∃ message,
       handle initial (PostExtract (Returned JNull) example_uuid)
         = (initial, Some (Response (Some 500) (ErrorBody message))))
  ∧ handle initial (PostExtract (Returned JNull) example_uuid)
    ≠ (initial, Some (Response (Some 400) (ErrorBody MISSING_FIELDS))).
Proof.
  split; [reflexivity |]. split; [reflexivity |].
  split; [eexists; reflexivity | discriminate].
Qed.

(** C9. The check is [!docsUrl || !extractionType]: a field that is
    present but falsy counts as missing.  The empty string is falsy, and a
    submission in which either field holds a falsy value [v] (the empty
    string, [null], [false], [0], [NaN]) is answered with the validation
    error, the server left as it was. *)
Theorem falsy_field_rejected (srv : server) (members : list (string * json))
    (uuid : string) (v : json) :
  truthy (Some v) = false →
  member "docsUrl" members = Some v ∨ member "extractionType" members = Some v →
  truthy (Some (JStr "")) = false
  ∧ handle srv (PostExtract (Returned (JObj members)) uuid)
    = (srv, Some (Response (Some 400) (ErrorBody MISSING_FIELDS))).
Proof.
  intros Hv Hfield. split; [reflexivity |].
  simpl. rewrite post_extract_rejected; [reflexivity | discriminate |].
  simpl. destruct Hfield as [-> | ->]; [left | right]; exact Hv.
Qed.

Lemma falsy_field_rejected_witness :
  truthy (Some (JStr "")) = false
  ∧ handle initial
      (PostExtract (Returned (JObj [("docsUrl", JStr "");
                                    ("extractionType", JStr "overview")]))
                   example_uuid)
    = (initial, Some (Response (Some 400) (ErrorBody MISSING_FIELDS))).
Proof.
  apply (falsy_field_rejected initial
           [("docsUrl", JStr ""); ("extractionType", JStr "overview")]
           example_uuid (JStr "")); [reflexivity | left; reflexivity].
Defined.

Example zero_and_null_rejected :
  handle initial
    (PostExtract (Returned (JObj [("docsUrl", JNum 0);
                                  ("extractionType", JNull)])) example_uuid)
  = (initial, Some (Response (Some 400) (ErrorBody MISSING_FIELDS))).
Proof. reflexivity. Qed.

(** ** The store operations *)

Lemma in_processing_spec (jobs : gmap string job) id :
  Design.in_processing jobs id = true ↔
  ∃ j, jobs !! id = Some j ∧ status j = processing.
Proof.
  unfold Design.in_processing, terminal. split.
  - destruct (jobs !! id) as [j |]; [| discriminate].
    intros H. exists j. split; [reflexivity |].
    destruct (status j); [reflexivity | discriminate | discriminate].
  - intros (j & -> & ->). reflexivity.
Qed.

(** C3, as the server has it.  [markCompleted] binds the identifier to a
    completed record carrying the result and [markFailed] to a failed
    record carrying the error, and neither touches another identifier.  On
    a record in [processing] this is the transition of the design.  The
    write has no guard: it cannot fail, whatever the record was. *)
Theorem mark_writes_record (jobs : gmap string job) (id : string)
    (r : json) (msg : string) :
  markCompleted jobs id r !! id = Some (Job completed (Some r) None)
  ∧ markFailed jobs id msg !! id = Some (Job failed None (Some msg))
  ∧ (∀ id', id' ≠ id →
       markCompleted jobs id r !! id' = jobs !! id'
       ∧ markFailed jobs id msg !! id' = jobs !! id')
  ∧ (∀ j, jobs !! id = Some j → status j = processing →
       Design.markCompleted jobs id r = inr (markCompleted jobs id r)
       ∧ Design.markFailed jobs id msg = inr (markFailed jobs id msg)).
Proof.
  unfold markCompleted, markFailed.
  split; [apply lookup_insert_eq |].
  split; [apply lookup_insert_eq |].
  split.
  - intros id' Hne. split; apply lookup_insert_ne; congruence.
  - intros j Hj Hst.
    assert (Hproc : Design.in_processing jobs id = true)
      by (apply in_processing_spec; eauto).
    unfold Design.markCompleted, Design.markFailed. rewrite Hproc.
    split; reflexivity.
Qed.

(** C3, as stated, fails: on a record that is already failed the design
    asks for [InvalidTransitionError], and the server's write replaces the
    record by a completed one; likewise on a completed record. *)
Lemma mark_overwrites_terminal_record :
  let failed_store : gmap string job :=
    {[ example_uuid := Job failed None (Some "boom") ]} in
  let completed_store : gmap string job :=
    {[ example_uuid := Job completed (Some (JStr "# Title")) None ]} in
  Design.markCompleted failed_store example_uuid (JStr "# Title")
    = inl Design.InvalidTransitionError
  ∧ markCompleted failed_store example_uuid (JStr "# Title") = completed_store
  ∧ Design.markFailed completed_store example_uuid "boom"
    = inl Design.InvalidTransitionError
  ∧ markFailed completed_store example_uuid "boom" = failed_store.
Proof.
  simpl. unfold markCompleted, markFailed.
  repeat split; apply insert_singleton_eq.
Qed.

(** C8, as the server has it.  [create] binds the identifier to a record
    in [processing] with no result and no error and touches no other
    identifier.  On an identifier that has no record this is the insertion
    of the design.  The write has no duplicate check: it cannot fail. *)
Theorem create_writes_processing (jobs : gmap string job) (id : string) :
  create jobs id !! id = Some (Job processing None None)
  ∧ (∀ id', id' ≠ id → create jobs id !! id' = jobs !! id')
  ∧ (jobs !! id = None → Design.create jobs id = inr (create jobs id)).
Proof.
  unfold create. repeat split.
  - apply lookup_insert_eq.
  - intros id' Hne. apply lookup_insert_ne. congruence.
  - intros Hnone. unfold Design.create. rewrite Hnone. reflexivity.
Qed.

(** C8, as stated, fails: on an identifier whose record is completed the
    design asks for [DuplicateIdError], and the server's write puts the
    record back to [processing], dropping its result.  The submit handler
    does so when the generator repeats an identifier. *)
Lemma create_overwrites_existing_record :
  let store : gmap string job :=
    {[ example_uuid := Job completed (Some (JStr "# Title")) None ]} in
  Design.create store example_uuid = inl Design.DuplicateIdError
  ∧ create store example_uuid = {[ example_uuid := Job processing None None ]}
  ∧ ∃ srv',
      handle (Server store []) (PostExtract (Returned example_body) example_uuid)
        = (srv', Some (Response None (AcceptedBody example_uuid "processing")))
      ∧ jobs srv' !! example_uuid = Some (Job processing None None).
Proof.
  simpl. split; [reflexivity |]. split.
  - unfold create. apply insert_singleton_eq.
  - eexists. split; [reflexivity |]. apply lookup_insert_eq.
Qed.

(** ** Steps of the event loop *)

Lemma run_cons srv ev evs : run srv (ev :: evs) = run (step srv ev) evs.
Proof. reflexivity. Qed.

Lemma run_app srv evs1 evs2 : run srv (evs1 ++ evs2) = run (run srv evs1) evs2.
Proof. unfold run. apply foldl_app. Qed.

(** A step leaves the server as it was, or registers a job for an accepted
    submission, or resumes a task. *)
Lemma step_cases srv ev :
  step srv ev = srv
  ∨ (∃ b uuid,
        ev = PostExtract (Returned b) uuid
        ∧ accepted (Returned b) = true
        ∧ step srv ev =
            Server (create (jobs srv) uuid)
                   (tasks srv ++ [Task uuid (get_field b "docsUrl")
                                       (get_field b "extractionType") AwaitCreate]))
  ∨ (∃ n d t,
        ev = Resume n d
        ∧ tasks srv !! n = Some t
        ∧ step srv ev =
            Server (resume t d (jobs srv)).2
                   (<[n := (resume t d (jobs srv)).1]> (tasks srv))).
Proof.
  destruct ev as [read uuid | jobId | rd | n d]; unfold step; simpl.
  - destruct (accepted read) eqn:Hacc.
    + right; left. destruct read as [b | e]; [| discriminate].
      exists b, uuid. split; [reflexivity |]. split; [assumption |].
      destruct (accepted_fields b Hacc) as [Hu Ht].
      rewrite (post_extract_accepted srv b uuid Hu Ht). reflexivity.
    + left. pose proof (post_extract_not_accepted srv read uuid Hacc) as H.
      destruct (post_extract srv read uuid). exact H.
  - left; reflexivity.
  - left; reflexivity.
  - unfold resume_nth. destruct (tasks srv !! n) as [t |] eqn:Ht.
    + right; right. exists n, d, t.
      split; [reflexivity |]. split; [exact Ht |].
      destruct (resume t d (jobs srv)). reflexivity.
    + left; reflexivity.
Qed.

(** ** Resuming a task *)

Lemma resume_jobId t d jobs : t_jobId (resume t d jobs).1 = t_jobId t.
Proof.
  task_cases t d;
    reflexivity.
Qed.

(** A resumed task writes at most once, to its own identifier, a
    well-formed terminal record, and only from a stage before the write. *)
Lemma resume_jobs t d jobs :
  (resume t d jobs).2 = jobs
  ∨ (pending t = true
     ∧ pending (resume t d jobs).1 = false
     ∧ ∃ j, terminal j = true ∧ well_formed j = true
            ∧ (resume t d jobs).2 = <[t_jobId t := j]> jobs).
Proof.
  task_cases t d;
    simpl; try (left; reflexivity); right;
    (split; [reflexivity |]); (split; [reflexivity |]); eexists;
    (split; [| split; [| reflexivity]]); reflexivity.
Qed.

Lemma resume_pending t d jobs :
  pending (resume t d jobs).1 = true → pending t = true.
Proof.
  task_cases t d; unfold resume, try_block, catch_block, cleanup, pending;
    simpl; congruence.
Qed.



(** A thrown value without a string conversion makes the [catch] block
    throw in its turn: the record is left as it was and the exception
    leaves the task. *)
Lemma resume_unprintable t d jobs :
  thrown_into (t_stage t) d = Some Unprintable →
  resume t d jobs = (set_stage t (Unhandled no_primitive), jobs).
Proof.
  task_cases t d;
    simpl; intros [=]; reflexivity.
Qed.

(** ** Invariants of every run *)

Lemma records_ok_step srv ev : records_ok srv → records_ok (step srv ev).
Proof.
  unfold records_ok. intros Hok.
  destruct (step_cases srv ev)
    as [-> | [(b & uuid & _ & _ & ->) | (n & d & t & _ & _ & ->)]]; simpl.
  - exact Hok.
  - apply map_Forall_insert_2; [reflexivity | exact Hok].
  - destruct (resume_jobs t d (jobs srv)) as [-> | (_ & _ & j & _ & Hj & ->)].
    + exact Hok.
    + apply map_Forall_insert_2; assumption.
Qed.

Lemma records_ok_run srv evs : records_ok srv → records_ok (run srv evs).
Proof.
  revert srv. induction evs as [| ev evs IH]; intros srv Hok; [exact Hok |].
  rewrite run_cons. apply IH, records_ok_step, Hok.
Qed.



(** C4. In every state the server reaches, each record has a result
    exactly when it is completed, an error exactly when it is failed, and
    neither while it is processing. *)
Theorem reachable_records_well_formed (evs : list event) (id : string) (j : job) :
  jobs (run initial evs) !! id = Some j →
  match status j with
  | processing => result j = None ∧ error j = None
  | completed => is_Some (result j) ∧ error j = None
  | failed => result j = None ∧ is_Some (error j)
  end.
Proof.
  intros Hj.
  assert (Hwf : well_formed j = true).
  { refine (records_ok_run initial evs _ id j Hj). apply map_Forall_empty. }
  unfold well_formed in Hwf.
  destruct (status j), (result j), (error j); try discriminate; eauto.
Qed.

Lemma reachable_records_well_formed_witness :
  jobs (run initial example_run) !! other_uuid
    = Some (Job failed None
              (Some "Environment variable ANTHROPIC_API_KEY is not set"))
  ∧ @None json = None
  ∧ is_Some (Some "Environment variable ANTHROPIC_API_KEY is not set").
Proof.
  split; [vm_compute; reflexivity |].
  apply (reachable_records_well_formed example_run other_uuid
           (Job failed None
              (Some "Environment variable ANTHROPIC_API_KEY is not set"))).
  vm_compute. reflexivity.
Defined.

Example example_run_records :
  jobs (run initial example_run) !! example_uuid
    = Some (Job completed (Some (JStr "# Title")) None)
  ∧ jobs (run initial example_run) !! "c2a4e6f8-0b1d-4f3a-9c5e-7a9b1d3f5e70"
    = Some (Job processing None None).
Proof. split; vm_compute; reflexivity. Qed.



(** An [Error] is stored as its message. *)
Example error_failure :
  jobs (run initial [PostExtract (Returned example_body) example_uuid;
                     Resume 0 (CreateSettled (Raised missing_key))])
    !! example_uuid
  = Some (Job failed None
            (Some "Environment variable ANTHROPIC_API_KEY is not set")).
Proof. vm_compute. reflexivity. Qed.

(** The condition on the thrown values is needed: a value for which
    [String] throws makes the [catch] block throw before it writes, so the
    job stays in [processing] and the exception leaves the task. *)
Example unprintable_failure_escapes :
  let srv := run initial [PostExtract (Returned example_body) example_uuid;
                          Resume 0 (CreateSettled (Raised Unprintable))] in
  jobs srv !! example_uuid = Some (Job processing None None)
  ∧ t_stage <$> tasks srv !! 0 = Some (Unhandled no_primitive).
Proof. split; vm_compute; reflexivity. Qed.

(** A thrown value that is not an [Error] is stored as its string. *)
Example non_error_failure :
  jobs (run initial [PostExtract (Returned example_body) example_uuid;
                     Resume 0 (CreateSettled (Returned ()));
                     Resume 0 (ExtractSettled (Raised (NonError "timeout")))])
    !! example_uuid
  = Some (Job failed None (Some "timeout")).
Proof. vm_compute. reflexivity. Qed.

(** ** Status queries *)

Lemma tasks_owned_step srv ev : tasks_owned srv → tasks_owned (step srv ev).
Proof.
  unfold tasks_owned. intros Hok.
  destruct (step_cases srv ev)
    as [-> | [(b & uuid & _ & _ & ->) | (n & d & t & _ & Ht & ->)]]; simpl.
  - exact Hok.
  - apply Forall_app. split.
    + eapply Forall_impl; [exact Hok |]. intros u Hu. simpl in Hu.
      apply lookup_insert_is_Some'. right. exact Hu.
    + constructor; [| constructor]. simpl.
      apply lookup_insert_is_Some'. left. reflexivity.
  - assert (Hkeep : ∀ id, is_Some (jobs srv !! id) →
                          is_Some ((resume t d (jobs srv)).2 !! id)).
    { intros id Hid.
      destruct (resume_jobs t d (jobs srv)) as [-> | (_ & _ & j & _ & _ & ->)];
        [exact Hid | apply lookup_insert_is_Some'; right; exact Hid]. }
    apply Forall_insert.
    + eapply Forall_impl; [exact Hok |]. intros u Hu. apply Hkeep, Hu.
    + rewrite resume_jobId. apply Hkeep.
      exact (proj1 (Forall_lookup _ _) Hok n t Ht).
Qed.

Lemma absent_step srv ev id :
  tasks_owned srv →
  jobs srv !! id = None →
  id ∉ issued [ev] →
  jobs (step srv ev) !! id = None.
Proof.
  intros Hown Hid Hnew.
  destruct (step_cases srv ev)
    as [-> | [(b & uuid & -> & Hacc & ->) | (n & d & t & -> & Ht & ->)]]; simpl.
  - exact Hid.
  - unfold issued in Hnew. rewrite Hacc in Hnew.
    unfold create. rewrite lookup_insert_ne; [exact Hid |].
    intros ->. apply Hnew. left.
  - destruct (resume_jobs t d (jobs srv)) as [-> | (_ & _ & j & _ & _ & ->)];
      [exact Hid |].
    rewrite lookup_insert_ne; [exact Hid |].
    intros Heq.
    pose proof (proj1 (Forall_lookup _ _) Hown n t Ht) as [j' Hj'].
    simpl in Hj'. rewrite Heq, Hid in Hj'. discriminate.
Qed.

Lemma issued_cons ev evs id :
  id ∉ issued (ev :: evs) → (id ∉ issued [ev]) ∧ (id ∉ issued evs).
Proof.
  destruct ev as [read uuid | | |]; simpl;
    try (intros H; split; [apply not_elem_of_nil | exact H]).
  destruct (accepted read); intros H.
  - apply not_elem_of_cons in H as [Hne Hrest].
    split; [| exact Hrest]. apply not_elem_of_cons.
    split; [exact Hne | apply not_elem_of_nil].
  - split; [apply not_elem_of_nil | exact H].
Qed.

Lemma absent_run srv evs id :
  tasks_owned srv →
  jobs srv !! id = None →
  id ∉ issued evs →
  jobs (run srv evs) !! id = None.
Proof.
  revert srv. induction evs as [| ev evs IH]; intros srv Hown Hid Hnew;
    [exact Hid |].
  apply issued_cons in Hnew as [Hev Hrest].
  rewrite run_cons. apply IH; [| | exact Hrest].
  - apply tasks_owned_step, Hown.
  - apply absent_step; assumption.
Qed.

(** C7. An identifier that was never handed out by a submission has no
    record in the store, and a status query for it is answered with status
    404, "Job not found". *)
Theorem unknown_job_not_found (evs : list event) (id : string) :
  id ∉ issued evs →
  jobs (run initial evs) !! id = None
  ∧ handle (run initial evs) (GetJob id)
    = (run initial evs, Some (Response (Some 404) (ErrorBody "Job not found"))).
Proof.
  intros Hnew.
  assert (Hid : jobs (run initial evs) !! id = None).
  { apply absent_run; [constructor | apply lookup_empty | exact Hnew]. }
  split; [exact Hid |].
  simpl. unfold get_job, get. rewrite Hid. reflexivity.
Qed.

Lemma unknown_job_not_found_witness :
  jobs (run initial example_run) !! "no-such-job" = None
  ∧ handle (run initial example_run) (GetJob "no-such-job")
    = (run initial example_run,
       Some (Response (Some 404) (ErrorBody "Job not found"))).
Proof.
  apply (unknown_job_not_found example_run "no-such-job").
  vm_compute. intros H.
  repeat (apply elem_of_cons in H as [H | H]; [discriminate H |]).
  apply elem_of_nil in H. exact H.
Defined.

(** ** Terminal records stay as they are *)

Lemma fresh_ids_cons srv ev evs :
  fresh_ids srv (ev :: evs) ↔ fresh_at srv ev ∧ fresh_ids (step srv ev) evs.
Proof. reflexivity. Qed.

Lemma fresh_ids_app srv evs1 evs2 :
  fresh_ids srv (evs1 ++ evs2) ↔
  fresh_ids srv evs1 ∧ fresh_ids (run srv evs1) evs2.
Proof.
  revert srv. induction evs1 as [| ev evs1 IH]; intros srv.
  - simpl. tauto.
  - rewrite <- app_comm_cons, !fresh_ids_cons, run_cons, IH. tauto.
Qed.

Lemma single_writer_step srv ev :
  single_writer srv → fresh_at srv ev → single_writer (step srv ev).
Proof.
  intros [Hproc Hone] Hfresh.
  destruct (step_cases srv ev)
    as [-> | [(b & uuid & -> & Hacc & ->) | (n & d & t & -> & Ht & ->)]].
  - split; assumption.
  - (* an accepted submission: a new record and a new task *)
    specialize (Hfresh Hacc). unfold single_writer. simpl. split.
    + intros k u [[Hk Hu] | [_ <-]]%lookup_snoc_Some Hpend; simpl.
      * unfold create. rewrite lookup_insert_ne; [eauto |].
        intros ->. rewrite (Hproc k u Hu Hpend) in Hfresh. discriminate.
      * apply lookup_insert_eq.
    + intros k m u v [[Hk Hu] | [-> <-]]%lookup_snoc_Some
                     [[Hm Hv] | [-> <-]]%lookup_snoc_Some Hpu Hpv Heq;
        simpl in *.
      * eauto.
      * rewrite <- Heq, (Hproc k u Hu Hpu) in Hfresh. discriminate.
      * rewrite Heq, (Hproc m v Hv Hpv) in Hfresh. discriminate.
      * reflexivity.
  - (* a task is resumed *)
    pose proof (lookup_lt_Some _ _ _ Ht) as Hlen.
    pose proof (resume_jobId t d (jobs srv)) as Hid.
    pose proof (resume_pending t d (jobs srv)) as Hpend.
    unfold single_writer. simpl. split.
    + intros k u Hu Hpu.
      apply list_lookup_insert_Some in Hu as [(<- & <- & _) | (Hne & Hu)].
      * destruct (resume_jobs t d (jobs srv))
          as [-> | (_ & Hdone & _)]; [| congruence].
        rewrite Hid. eauto.
      * destruct (resume_jobs t d (jobs srv))
          as [-> | (Hpt & _ & j & _ & _ & ->)]; [eauto |].
        rewrite lookup_insert_ne; [eauto |].
        intros Heq. apply Hne. eauto.
    + intros k m u v Hu Hv Hpu Hpv Heq.
      apply list_lookup_insert_Some in Hu as [(<- & <- & _) | (Hk & Hu)];
        apply list_lookup_insert_Some in Hv as [(<- & <- & _) | (Hm & Hv)].
      * reflexivity.
      * rewrite Hid in Heq. eauto.
      * rewrite Hid in Heq. eauto.
      * eauto.
Qed.

Lemma terminal_step srv ev id j :
  single_writer srv → fresh_at srv ev →
  jobs srv !! id = Some j → terminal j = true →
  jobs (step srv ev) !! id = Some j.
Proof.
  intros [Hproc _] Hfresh Hj Hterm.
  destruct (step_cases srv ev)
    as [-> | [(b & uuid & -> & Hacc & ->) | (n & d & t & -> & Ht & ->)]]; simpl.
  - exact Hj.
  - unfold create. rewrite lookup_insert_ne; [exact Hj |].
    intros ->. rewrite (Hfresh Hacc) in Hj. discriminate.
  - destruct (resume_jobs t d (jobs srv))
      as [-> | (Hpt & _ & j' & _ & _ & ->)]; [exact Hj |].
    rewrite lookup_insert_ne; [exact Hj |].
    intros Heq. rewrite <- Heq, (Hproc n t Ht Hpt) in Hj.
    injection Hj as <-. discriminate.
Qed.

Lemma single_writer_run srv evs :
  single_writer srv → fresh_ids srv evs → single_writer (run srv evs).
Proof.
  revert srv. induction evs as [| ev evs IH]; intros srv Hinv Hfresh;
    [exact Hinv |].
  apply fresh_ids_cons in Hfresh as [Hev Hrest].
  rewrite run_cons. apply IH; [apply single_writer_step |]; assumption.
Qed.

Lemma terminal_run srv evs id j :
  single_writer srv → fresh_ids srv evs →
  jobs srv !! id = Some j → terminal j = true →
  jobs (run srv evs) !! id = Some j.
Proof.
  revert srv. induction evs as [| ev evs IH]; intros srv Hinv Hfresh Hj Hterm;
    [exact Hj |].
  apply fresh_ids_cons in Hfresh as [Hev Hrest].
  rewrite run_cons. apply IH; try assumption.
  - apply single_writer_step; assumption.
  - apply terminal_step; assumption.
Qed.

Lemma single_writer_initial : single_writer initial.
Proof. split; simpl; intros *; rewrite lookup_nil; discriminate. Qed.

Lemma get_job_record srv id j :
  get_job srv id = Response None (JobBody j) ↔ jobs srv !! id = Some j.
Proof.
  unfold get_job, get. destruct (jobs srv !! id) as [j' |]; split;
    congruence.
Qed.

(** C2. Along a run in which the generator never repeats an identifier
    that has a record, once a status query reports a job completed or
    failed, every later status query for that identifier gives the very
    same answer: same status, same result or error.  The job does not go
    back to [processing] nor change between [completed] and [failed]. *)
Theorem terminal_status_stable (evs later : list event) (id : string) (j : job) :
  fresh_ids initial (evs ++ later) →
  get_job (run initial evs) id = Response None (JobBody j) →
  terminal j = true →
  get_job (run initial (evs ++ later)) id = Response None (JobBody j).
Proof.
  intros [Hevs Hlater]%fresh_ids_app Hget Hterm.
  apply get_job_record. apply get_job_record in Hget.
  rewrite run_app. apply terminal_run; try assumption.
  apply single_writer_run; [apply single_writer_initial | exact Hevs].
Qed.

Lemma terminal_status_stable_witness :
  get_job (run initial until_completed) example_uuid
    = Response None (JobBody (Job completed (Some (JStr "# Title")) None))
  ∧ get_job (run initial (until_completed ++ afterwards)) example_uuid
    = Response None (JobBody (Job completed (Some (JStr "# Title")) None)).
Proof.
  split; [vm_compute; reflexivity |].
  apply (terminal_status_stable until_completed afterwards example_uuid
           (Job completed (Some (JStr "# Title")) None)).
  - vm_compute. repeat split; intros _; reflexivity.
  - vm_compute. reflexivity.
  - reflexivity.
Defined.

(** The contract of the generator is needed: the write of [create] has no
    duplicate check, so an identifier handed out twice puts a completed
    job back to [processing]. *)
Example repeated_uuid_resets_job :
  get_job (run initial until_completed) example_uuid
    = Response None (JobBody (Job completed (Some (JStr "# Title")) None))
  ∧ get_job (run initial (until_completed ++
               [PostExtract (Returned example_body) example_uuid]))
            example_uuid
    = Response None (JobBody (Job processing None None)).
Proof. split; vm_compute; reflexivity. Qed.

(** ** Listing the generated documents *)

Lemma append_cons c p s : String c p +:+ s = String c (p +:+ s).
Proof. reflexivity. Qed.

Lemma length_append p s :
  String.length (p +:+ s) = String.length p + String.length s.
Proof.
  induction p as [| c p IH]; [reflexivity |].
  rewrite append_cons. simpl. rewrite IH. reflexivity.
Qed.

Lemma substring_whole s : String.substring 0 (String.length s) s = s.
Proof. induction s as [| c s IH]; simpl; [| rewrite IH]; reflexivity. Qed.

Lemma substring_skip p s m :
  String.substring (String.length p) m (p +:+ s) = String.substring 0 m s.
Proof.
  induction p as [| c p IH]; [reflexivity |].
  rewrite append_cons. simpl. exact IH.
Qed.

Lemma substring_split s k :
  k ≤ String.length s →
  String.substring 0 k s +:+ String.substring k (String.length s - k) s = s.
Proof.
  revert k. induction s as [| c s IH]; intros k Hk.
  - destruct k; reflexivity.
  - destruct k as [| k].
    + simpl. rewrite substring_whole. reflexivity.
    + simpl in Hk. simpl. rewrite append_cons, IH; [reflexivity | lia].
Qed.

(** [endsWith] holds exactly of the strings that are some stem followed by
    the suffix. *)
Lemma ends_with_spec s suffix :
  ends_with s suffix = true ↔ ∃ stem, s = stem +:+ suffix.
Proof.
  unfold ends_with. split.
  - destruct (Nat.leb_spec (String.length suffix) (String.length s)) as [Hle |];
      [| discriminate].
    intros Heq%String.eqb_eq.
    exists (String.substring 0 (String.length s - String.length suffix) s).
    rewrite <- (substring_split s (String.length s - String.length suffix))
      at 1 by lia.
    f_equal.
    replace (String.length s - (String.length s - String.length suffix))
      with (String.length suffix) by lia.
    exact Heq.
  - intros [stem ->]. rewrite length_append.
    destruct (Nat.leb_spec (String.length suffix)
                (String.length stem + String.length suffix)) as [_ | Hlt];
      [| lia].
    replace (String.length stem + String.length suffix - String.length suffix)
      with (String.length stem) by lia.
    rewrite substring_skip, substring_whole. apply String.eqb_refl.
Qed.

Lemma foldl_visit docs entries :
  foldl visit docs entries
  = docs ++ map doc_of (List.filter is_markdown_file entries).
Proof.
  revert docs. induction entries as [| entry entries IH]; intros docs; simpl.
  - rewrite app_nil_r. reflexivity.
  - rewrite IH. unfold visit, is_markdown_file.
    destruct (isFile entry && ends_with (name entry) ".md"); simpl;
      [rewrite <- app_assoc |]; reflexivity.
Qed.

(** C10. The answer of the listing always has status 200.  When reading
    the directory throws, at the start or after some entries, the answer
    carries the empty list.  When the read runs to its end, the answer
    lists, in directory order, one document per entry that is a regular
    file whose name ends in [.md], and nothing else. *)
Theorem list_docs_answer (rd : dir_read) :
  status_code (get_docs rd) = 200
  ∧ (∀ e, failure rd = Some e → get_docs rd = Response None (DocsBody []))
  ∧ (failure rd = None →
       get_docs rd
       = Response None
           (DocsBody (map doc_of (List.filter is_markdown_file (yielded rd)))))
  ∧ (∀ entry, is_markdown_file entry = true ↔
              isFile entry = true ∧ ∃ stem, name entry = stem +:+ ".md").
Proof.
  unfold get_docs, get_docs_try. rewrite foldl_visit.
  split; [destruct (failure rd); reflexivity |].
  split; [intros e ->; reflexivity |].
  split; [intros ->; reflexivity |].
  intros entry. unfold is_markdown_file.
  rewrite andb_true_iff, ends_with_spec. reflexivity.
Qed.

Example list_docs_example :
  get_docs (DirRead example_dir None)
  = Response None (DocsBody
      [ Doc "extraction-2025-01-01T10-00-00-000Z.md"
            "./generated-docs/extraction-2025-01-01T10-00-00-000Z.md";
        Doc ".md" "./generated-docs/.md" ])
  ∧ get_docs (DirRead example_dir (Some (ErrorObj "EIO")))
    = Response None (DocsBody [])
  ∧ get_docs (DirRead [] (Some (ErrorObj "No such file or directory")))
    = Response None (DocsBody []).
Proof. repeat split; vm_compute; reflexivity. Qed.

(** * Further properties of the server *)

(** ** Submissions *)

(** X1. The submit handler has three answers.  It answers 500 exactly when
    the body cannot be read or is [null], 400 exactly when the body is
    read, is not [null] and one of the two fields is falsy, and it accepts
    otherwise.  Only when it accepts does it change the server; a
    submission answered with an error leaves no record and no task. *)
Theorem submit_three_answers (srv : server) (read : outcome json) (uuid : string) :
  let srv' := (post_extract srv read uuid).1 in
  let r := (post_extract srv read uuid).2 in
  (code r = Some 500 ↔ (∃ e, read = Raised e) ∨ read = Returned JNull)
  ∧ (code r = Some 400 ↔
       ∃ b, read = Returned b ∧ b ≠ JNull
            ∧ (truthy (get_field b "docsUrl") = false
               ∨ truthy (get_field b "extractionType") = false))
  ∧ (code r = None ↔ accepted read = true)
  ∧ (code r ≠ None → srv' = srv)
  ∧ (code r = None →
       body r = AcceptedBody uuid "processing"
       ∧ jobs srv' = create (jobs srv) uuid
       ∧ length (tasks srv') = S (length (tasks srv))).
Proof.
  cbv zeta.
  destruct read as [b | e]; [| simpl; break_down].
  destruct (truthy (get_field b "docsUrl")) eqn:Hu;
    [destruct (truthy (get_field b "extractionType")) eqn:Ht |].
  - (* both fields are truthy *)
    rewrite (post_extract_accepted srv b uuid Hu Ht).
    assert (Hacc : accepted (Returned b) = true).
    { destruct b; try discriminate Hu; simpl in *; rewrite Hu, Ht; reflexivity. }
    assert (Hnn : b ≠ JNull) by (intros ->; discriminate Hu).
    rewrite Hacc. simpl. rewrite length_app. simpl. break_down. lia.
  - (* the second field is falsy *)
    assert (Hnn : b ≠ JNull) by (intros ->; discriminate Hu).
    rewrite (post_extract_rejected srv b uuid Hnn (or_intror Ht)).
    assert (Hacc : accepted (Returned b) = false).
    { destruct b; simpl in *; try congruence; rewrite Hu, Ht; reflexivity. }
    rewrite Hacc. simpl. break_down.
  - (* the first field is falsy: the body may be [null] *)
    assert (Hacc : accepted (Returned b) = false).
    { destruct (accepted (Returned b)) eqn:Hacc; [| reflexivity].
      apply accepted_fields in Hacc as [Hu' _]. congruence. }
    rewrite Hacc.
    assert (Hnull : b = JNull ∨ b ≠ JNull)
      by (destruct b; (left; reflexivity) || (right; discriminate)).
    destruct Hnull as [-> | Hnn]; [simpl; break_down |].
    rewrite (post_extract_rejected srv b uuid Hnn (or_introl Hu)).
    simpl. break_down.
Qed.

Example submit_three_answers_example :
  code (post_extract initial (Raised (NonError "aborted")) example_uuid).2
    = Some 500
  ∧ body (post_extract initial (Raised (NonError "aborted")) example_uuid).2
    = ErrorBody "Internal server error"
  ∧ code (post_extract initial (Returned (JStr "docsUrl")) example_uuid).2
    = Some 400
  ∧ code (post_extract initial (Returned example_body) example_uuid).2 = None.
Proof. repeat split. Qed.

(** ** Records are kept *)

Lemma kept_step srv ev id :
  is_Some (jobs srv !! id) → is_Some (jobs (step srv ev) !! id).
Proof.
  intros Hid.
  destruct (step_cases srv ev)
    as [-> | [(b & uuid & _ & _ & ->) | (n & d & t & _ & _ & ->)]]; simpl.
  - exact Hid.
  - apply lookup_insert_is_Some'. right. exact Hid.
  - destruct (resume_jobs t d (jobs srv)) as [-> | (_ & _ & j & _ & _ & ->)];
      [exact Hid | apply lookup_insert_is_Some'; right; exact Hid].
Qed.

Lemma kept_run srv evs id :
  is_Some (jobs srv !! id) → is_Some (jobs (run srv evs) !! id).
Proof.
  revert srv. induction evs as [| ev evs IH]; intros srv Hid; [exact Hid |].
  rewrite run_cons. apply IH, kept_step, Hid.
Qed.

Lemma issued_run srv evs id :
  id ∈ issued evs → is_Some (jobs (run srv evs) !! id).
Proof.
  revert srv. induction evs as [| ev evs IH]; intros srv Hin.
  - apply elem_of_nil in Hin. destruct Hin.
  - rewrite run_cons.
    destruct ev as [read uuid | | |]; simpl in Hin; try (apply IH, Hin).
    destruct (accepted read) eqn:Hacc; [| apply IH, Hin].
    apply elem_of_cons in Hin as [-> | Hin]; [| apply IH, Hin].
    apply kept_run.
    destruct (step_cases srv (PostExtract read uuid))
      as [Hsame | [(b & u & [= -> ->] & _ & ->) | (n & d & t & [=] & _)]].
    + destruct read as [b | e]; [| discriminate].
      destruct (accepted_fields b Hacc) as [Hu Ht].
      unfold step in *. simpl in *.
      rewrite (post_extract_accepted srv b uuid Hu Ht). simpl.
      apply lookup_insert_is_Some'. left. reflexivity.
    + simpl. apply lookup_insert_is_Some'. left. reflexivity.
Qed.

(** X2. Along every run, a status query finds a record exactly for the
    identifiers that an accepted submission handed out; for every other
    identifier the answer is 404. *)
Theorem record_iff_issued (evs : list event) (id : string) :
  ((∃ j, get_job (run initial evs) id = Response None (JobBody j))
   ↔ id ∈ issued evs)
  ∧ (get_job (run initial evs) id
       = Response (Some 404) (ErrorBody "Job not found")
     ↔ id ∉ issued evs).
Proof.
  unfold get_job, get.
  destruct (decide (id ∈ issued evs)) as [Hin | Hout].
  - destruct (issued_run initial evs id Hin) as [j ->].
    split; split; try (intros H; discriminate H); eauto.
    intros H. contradiction.
  - rewrite (absent_run initial evs id); [| constructor | apply lookup_empty | exact Hout].
    split; split; try (intros [j H]; discriminate H); eauto.
    intros H. contradiction.
Qed.

(** X3. The server never removes a record: from any state, whatever
    happens next, an identifier that has a record keeps one, so the store
    never shrinks. *)
Theorem records_never_removed (srv : server) (evs : list event) :
  dom (jobs srv) ⊆ dom (jobs (run srv evs))
  ∧ size (jobs srv) ≤ size (jobs (run srv evs)).
Proof.
  assert (Hsub : dom (jobs srv) ⊆ dom (jobs (run srv evs))).
  { intros id Hid. apply elem_of_dom. apply kept_run.
    apply elem_of_dom. exact Hid. }
  split; [exact Hsub |].
  rewrite <- !size_dom. apply subseteq_size, Hsub.
Qed.

(** ** One job does not touch another *)

(** X4. Resuming the task of one job changes the record of no other job
    and no other task. *)
Theorem resume_touches_own_job (srv : server) (n : nat) (d : settlement)
    (t : task) :
  tasks srv !! n = Some t →
  (∀ id, id ≠ t_jobId t →
         jobs (step srv (Resume n d)) !! id = jobs srv !! id)
  ∧ (∀ m, m ≠ n → tasks (step srv (Resume n d)) !! m = tasks srv !! m).
Proof.
  intros Ht. unfold step. simpl. unfold resume_nth. rewrite Ht.
  destruct (resume t d (jobs srv)) as [t' jobs'] eqn:Hres. simpl.
  split.
  - intros id Hne.
    pose proof (resume_jobs t d (jobs srv)) as Hjobs.
    rewrite Hres in Hjobs. simpl in Hjobs.
    destruct Hjobs as [-> | (_ & _ & j & _ & _ & ->)]; [reflexivity |].
    apply lookup_insert_ne. congruence.
  - intros m Hne. apply list_lookup_insert_ne. congruence.
Qed.

Lemma resume_touches_own_job_witness :
  (∀ id, id ≠ other_uuid →
         jobs (step (run initial until_completed)
                 (Resume 1 (CreateSettled (Raised missing_key)))) !! id
         = jobs (run initial until_completed) !! id)
  ∧ (∀ m, m ≠ 1 →
          tasks (step (run initial until_completed)
                   (Resume 1 (CreateSettled (Raised missing_key)))) !! m
          = tasks (run initial until_completed) !! m).
Proof.
  apply (resume_touches_own_job (run initial until_completed) 1
           (CreateSettled (Raised missing_key))
           (Task other_uuid (Some (JStr "https://example.com"))
                 (Some (JStr "overview")) AwaitCreate)).
  vm_compute. reflexivity.
Defined.

(** ** What the operation delivers is what is reported *)




(** ** Tasks *)

Lemma submitted_task srv b uuid :
  accepted (Returned b) = true →
  step srv (PostExtract (Returned b) uuid)
  = Server (create (jobs srv) uuid)
           (tasks srv ++ [Task uuid (get_field b "docsUrl")
                               (get_field b "extractionType") AwaitCreate]).
Proof.
  intros Hacc. destruct (accepted_fields b Hacc) as [Hu Ht].
  unfold step. simpl. rewrite (post_extract_accepted srv b uuid Hu Ht).
  reflexivity.
Qed.


Lemma tasks_step srv ev :
  t_jobId <$> tasks (step srv ev) = (t_jobId <$> tasks srv) ++ issued [ev].
Proof.
  destruct (step_cases srv ev)
    as [Hsame | [(b & uuid & -> & Hacc & ->) | (n & d & t & -> & Ht & ->)]].
  - rewrite Hsame. destruct ev as [read uuid | | |]; simpl;
      try (rewrite app_nil_r; reflexivity).
    destruct (accepted read) eqn:Hacc; [| rewrite app_nil_r; reflexivity].
    exfalso. destruct read as [b | e]; [| discriminate].
    rewrite (submitted_task srv b uuid Hacc) in Hsame.
    apply (f_equal (λ s, length (tasks s))) in Hsame. simpl in Hsame.
    rewrite length_app in Hsame. simpl in Hsame. lia.
  - unfold issued. rewrite Hacc. simpl. rewrite fmap_app. reflexivity.
  - simpl. rewrite app_nil_r, list_fmap_insert, resume_jobId.
    apply list_insert_id. rewrite list_lookup_fmap, Ht. reflexivity.
Qed.

Lemma issued_app evs1 evs2 : issued (evs1 ++ evs2) = issued evs1 ++ issued evs2.
Proof.
  induction evs1 as [| ev evs1 IH]; [reflexivity |].
  destruct ev as [read uuid | | |]; simpl; try exact IH.
  destruct (accepted read); simpl; rewrite IH; reflexivity.
Qed.

(** X6. One background task is launched for each accepted submission and
    none otherwise: along every run the identifiers of the tasks, in launch
    order, are the identifiers handed out, in the order in which they were
    handed out. *)
Theorem one_task_per_accepted_submission (srv : server) (evs : list event) :
  t_jobId <$> tasks (run srv evs) = (t_jobId <$> tasks srv) ++ issued evs
  ∧ length (tasks (run srv evs)) = length (tasks srv) + length (issued evs).
Proof.
  assert (Hids : t_jobId <$> tasks (run srv evs)
                 = (t_jobId <$> tasks srv) ++ issued evs).
  { revert srv. induction evs as [| ev evs IH]; intros srv.
    - simpl. rewrite app_nil_r. reflexivity.
    - rewrite run_cons, IH, tasks_step, <- app_assoc.
      rewrite <- issued_app. reflexivity. }
  split; [exact Hids |].
  apply (f_equal length) in Hids.
  rewrite length_app, !length_fmap in Hids. exact Hids.
Qed.

Lemma finished_step srv ev n t :
  tasks srv !! n = Some t → pending t = false →
  ∃ t', tasks (step srv ev) !! n = Some t' ∧ pending t' = false.
Proof.
  intros Ht Hdone.
  destruct (step_cases srv ev)
    as [-> | [(b & uuid & _ & _ & ->) | (m & d & u & _ & Hu & ->)]]; simpl.
  - eauto.
  - exists t. split; [| exact Hdone].
    rewrite lookup_app_l by (eapply lookup_lt_Some; exact Ht). exact Ht.
  - destruct (decide (m = n)) as [-> | Hne].
    + exists (resume u d (jobs srv)).1. split.
      * apply list_lookup_insert_eq. eapply lookup_lt_Some. exact Ht.
      * rewrite Hu in Ht. injection Ht as ->.
        destruct (pending (resume t d (jobs srv)).1) eqn:Hp; [| reflexivity].
        apply resume_pending in Hp. congruence.
    + exists t. split; [| exact Hdone].
      rewrite list_lookup_insert_ne by exact Hne. exact Ht.
Qed.

(** X7. A task writes the record of its job at most once: once it has
    written, or has ended, nothing that happens later makes it pending
    again, and resuming it never changes the store. *)
Theorem finished_task_never_writes (srv : server) (evs : list event) (n : nat)
    (t : task) (d : settlement) :
  tasks srv !! n = Some t →
  pending t = false →
  (∃ t', tasks (run srv evs) !! n = Some t' ∧ pending t' = false)
  ∧ jobs (step (run srv evs) (Resume n d)) = jobs (run srv evs).
Proof.
  intros Ht Hdone.
  assert (Hlater : ∃ t', tasks (run srv evs) !! n = Some t' ∧ pending t' = false).
  { revert srv t Ht Hdone. induction evs as [| ev evs IH]; intros srv t Ht Hdone.
    - eauto.
    - rewrite run_cons.
      destruct (finished_step srv ev n t Ht Hdone) as (t' & Ht' & Hdone').
      eapply IH; eassumption. }
  split; [exact Hlater |].
  destruct Hlater as (t' & Ht' & Hdone').
  unfold step. simpl. unfold resume_nth. rewrite Ht'.
  pose proof (resume_jobs t' d (jobs (run srv evs))) as Hjobs.
  destruct (resume t' d (jobs (run srv evs))) as [t'' jobs'']. simpl in *.
  destruct Hjobs as [-> | (Hp & _)]; [reflexivity | congruence].
Qed.

Lemma finished_task_never_writes_witness :
  (∃ t', tasks (run (run initial until_completed) afterwards) !! 0 = Some t'
         ∧ pending t' = false)
  ∧ jobs (step (run (run initial until_completed) afterwards)
            (Resume 0 (ExtractSettled (Raised (ErrorObj "late")))))
    = jobs (run (run initial until_completed) afterwards).
Proof.
  apply (finished_task_never_writes (run initial until_completed) afterwards 0
           (Task example_uuid (Some (JStr "https://example.com"))
                 (Some (JStr "overview")) AwaitCleanup)
           (ExtractSettled (Raised (ErrorObj "late"))));
    vm_compute; reflexivity.
Defined.

Lemma fresh_issued srv evs :
  fresh_ids srv evs →
  NoDup (issued evs) ∧ ∀ id, id ∈ issued evs → jobs srv !! id = None.
Proof.
  revert srv. induction evs as [| ev evs IH]; intros srv Hfresh.
  - split; [constructor | intros id Hin; apply elem_of_nil in Hin; destruct Hin].
  - apply fresh_ids_cons in Hfresh as [Hev Hrest].
    destruct (IH _ Hrest) as [Hnodup Habsent].
    assert (Hbefore : ∀ id, id ∈ issued evs → jobs srv !! id = None).
    { intros id Hin. specialize (Habsent id Hin).
      destruct (jobs srv !! id) as [j |] eqn:Hj; [| reflexivity].
      destruct (kept_step srv ev id (mk_is_Some _ _ Hj)) as [j' Hj'].
      congruence. }
    destruct ev as [read uuid | | |]; simpl; try (split; assumption).
    destruct (accepted read) eqn:Hacc; [| split; assumption].
    split.
    + constructor; [| exact Hnodup]. intros Hin.
      specialize (Habsent uuid Hin).
      destruct read as [b | e]; [| discriminate].
      rewrite (submitted_task srv b uuid Hacc) in Habsent. simpl in Habsent.
      unfold create in Habsent. rewrite lookup_insert_eq in Habsent.
      discriminate.
    + intros id [-> | Hin]%elem_of_cons; [exact (Hev Hacc) | exact (Hbefore id Hin)].
Qed.

(** X8. Along a run in which the generator never repeats an identifier
    that has a record, no two accepted submissions get the same identifier
    and the job map holds exactly one record per accepted submission. *)
Theorem one_record_per_accepted_submission (evs : list event) :
  fresh_ids initial evs →
  NoDup (issued evs)
  ∧ dom (jobs (run initial evs)) = list_to_set (issued evs)
  ∧ size (jobs (run initial evs)) = length (issued evs).
Proof.
  intros Hfresh. destruct (fresh_issued initial evs Hfresh) as [Hnodup _].
  assert (Hdom : dom (jobs (run initial evs)) = list_to_set (issued evs)).
  { apply set_eq. intros id. rewrite elem_of_dom, elem_of_list_to_set. split.
    - intros Hsome. destruct (decide (id ∈ issued evs)) as [Hin | Hout];
        [exact Hin |].
      rewrite (absent_run initial evs id) in Hsome;
        [| constructor | apply lookup_empty | exact Hout].
      destruct Hsome as [j Hj]. discriminate Hj.
    - apply issued_run. }
  split; [exact Hnodup |]. split; [exact Hdom |].
  rewrite <- size_dom, Hdom. apply size_list_to_set, Hnodup.
Qed.

Lemma one_record_per_accepted_submission_witness :
  NoDup (issued example_run)
  ∧ dom (jobs (run initial example_run)) = list_to_set (issued example_run)
  ∧ size (jobs (run initial example_run)) = length (issued example_run).
Proof.
  apply (one_record_per_accepted_submission example_run).
  vm_compute. repeat split; intros _; reflexivity.
Defined.

(** ** The middleware and the routes together *)

Lemma cors_headers_lookup (h : gmap string string) :
  cors_headers h !! "Access-Control-Allow-Origin" = Some "*"
  ∧ cors_headers h !! "Access-Control-Allow-Methods"
    = Some "GET, POST, PUT, DELETE, OPTIONS"
  ∧ cors_headers h !! "Access-Control-Allow-Headers"
    = Some "Content-Type, Authorization"
  ∧ cors_headers h !! "Content-Type" = h !! "Content-Type".
Proof.
  unfold cors_headers. repeat split.
  - rewrite !lookup_insert_ne by discriminate. apply lookup_insert_eq.
  - rewrite lookup_insert_ne by discriminate. apply lookup_insert_eq.
  - apply lookup_insert_eq.
  - rewrite !lookup_insert_ne by discriminate. reflexivity.
Qed.

(** A route leaves the headers it finds, but for the content type. *)
Lemma router_headers readTextFile req srv rep k :
  k ≠ "Content-Type" →
  r_headers (router readTextFile req srv rep).2 !! k = r_headers rep !! k.
Proof.
  intros Hk. destruct req as [read uuid | jobId | rd | filename]; simpl;
    try reflexivity.
  - destruct (post_extract srv read uuid). reflexivity.
  - unfold get_doc. destruct (readTextFile (doc_file filename)); simpl;
      [apply lookup_insert_ne; congruence | reflexivity].
Qed.

(** What a route does to the server, the status and the body does not
    depend on the headers it finds. *)
Lemma router_ignores_headers readTextFile req srv h :
  (router readTextFile req srv (Reply h None None)).1
    = (router readTextFile req srv blank).1
  ∧ r_status (router readTextFile req srv (Reply h None None)).2
    = r_status (router readTextFile req srv blank).2
  ∧ r_body (router readTextFile req srv (Reply h None None)).2
    = r_body (router readTextFile req srv blank).2.
Proof.
  destruct req as [read uuid | jobId | rd | filename]; simpl;
    try (repeat split; reflexivity).
  - destruct (post_extract srv read uuid). repeat split; reflexivity.
  - unfold get_doc. destruct (readTextFile (doc_file filename));
      repeat split; reflexivity.
Qed.

(** X9. Every response of the application carries the three CORS headers.
    An [OPTIONS] request stops at the middleware: it is answered 200 with
    no body and no route runs, so it changes nothing on the server, even
    when it carries a valid submission.  For any other method the server,
    the status and the body are those the route gives. *)
Theorem cors_around_routes (readTextFile : string → outcome string)
    (method : string) (req : request) (srv : server) :
  let rep := (app readTextFile method req srv).2 in
  r_headers rep !! "Access-Control-Allow-Origin" = Some "*"
  ∧ r_headers rep !! "Access-Control-Allow-Methods"
    = Some "GET, POST, PUT, DELETE, OPTIONS"
  ∧ r_headers rep !! "Access-Control-Allow-Headers"
    = Some "Content-Type, Authorization"
  ∧ (method = "OPTIONS" →
       app readTextFile method req srv
       = (srv, Reply (cors_headers ∅) (Some 200) None))
  ∧ (method ≠ "OPTIONS" →
       (app readTextFile method req srv).1
         = (router readTextFile req srv blank).1
       ∧ r_status rep = r_status (router readTextFile req srv blank).2
       ∧ r_body rep = r_body (router readTextFile req srv blank).2).
Proof.
  cbv zeta. unfold app, cors.
  destruct (cors_headers_lookup ∅) as (Ho & Hm & Hh & _).
  destruct (String.eqb_spec method "OPTIONS") as [-> | Hne]; simpl.
  - split_and!; try assumption; [reflexivity | intros Hne; contradiction].
  - rewrite !router_headers by discriminate. simpl.
    split_and!; try assumption; [intros Heq; contradiction |].
    intros _. apply router_ignores_headers.
Qed.

Example preflight_creates_no_job :
  app (λ _, Raised (ErrorObj "ENOENT")) "OPTIONS"
      (PostExtractRequest (Returned example_body) example_uuid) initial
  = (initial, Reply (cors_headers ∅) (Some 200) None)
  ∧ jobs (app (λ _, Raised (ErrorObj "ENOENT")) "POST"
            (PostExtractRequest (Returned example_body) example_uuid)
            initial).1 !! example_uuid
    = Some (Job processing None None).
Proof. split; vm_compute; reflexivity. Qed.

(** X10. Fetching one document changes nothing on the server.  When the
    file is read, the answer is 200, carries the text of the file and is
    labelled [text/markdown].  When the read throws, whatever it throws,
    the answer is 404 with the message "Document not found", and it is not
    labelled as markdown. *)
Theorem fetch_document (readTextFile : string → outcome string)
    (method : string) (filename : string) (srv : server) :
  method ≠ "OPTIONS" →
  let rep := (app readTextFile method (GetDocRequest filename) srv).2 in
  (app readTextFile method (GetDocRequest filename) srv).1 = srv
  ∧ match readTextFile ("./generated-docs/" +:+ filename) with
    | Returned text =>
        final_status rep = 200
        ∧ r_body rep = Some (TextContent text)
        ∧ r_headers rep !! "Content-Type" = Some "text/markdown"
    | Raised _ =>
        final_status rep = 404
        ∧ r_body rep = Some (JsonContent (ErrorBody "Document not found"))
        ∧ r_headers rep !! "Content-Type" = None
    end.
Proof.
  intros Hne. cbv zeta. unfold app, cors.
  apply String.eqb_neq in Hne. rewrite Hne. simpl.
  split; [reflexivity |]. unfold get_doc, doc_file.
  destruct (readTextFile ("./generated-docs/" +:+ filename)); simpl.
  - split_and!; [reflexivity | reflexivity | apply lookup_insert_eq].
  - split_and!; [reflexivity | reflexivity |].
    destruct (cors_headers_lookup ∅) as (_ & _ & _ & ->). apply lookup_empty.
Qed.

Lemma fetch_document_witness :
  (app (λ _, Raised (ErrorObj "No such file or directory")) "GET"
       (GetDocRequest "missing.md") initial).1 = initial
  ∧ final_status
      (app (λ _, Raised (ErrorObj "No such file or directory")) "GET"
           (GetDocRequest "missing.md") initial).2 = 404
  ∧ r_body
      (app (λ _, Raised (ErrorObj "No such file or directory")) "GET"
           (GetDocRequest "missing.md") initial).2
    = Some (JsonContent (ErrorBody "Document not found"))
  ∧ r_headers
      (app (λ _, Raised (ErrorObj "No such file or directory")) "GET"
           (GetDocRequest "missing.md") initial).2 !! "Content-Type" = None.
Proof.
  apply (fetch_document (λ _, Raised (ErrorObj "No such file or directory"))
           "GET" "missing.md" initial).
  discriminate.
Defined.

(** X11. Every document of the listing can be fetched by its name: the
    path the listing gives for it is the file the fetch route reads when
    it is asked for that name, so when that file can be read the answer is
    its text. *)
Theorem listed_document_is_fetched (readTextFile : string → outcome string)
    (rd : dir_read) (docs : list doc) (d : doc) (text : string)
    (srv : server) :
  get_docs rd = Response None (DocsBody docs) →
  d ∈ docs →
  readTextFile (doc_path d) = Returned text →
  doc_path d = doc_file (doc_name d)
  ∧ app readTextFile "GET" (GetDocRequest (doc_name d)) srv
    = (srv, Reply (<["Content-Type" := "text/markdown"]> (cors_headers ∅))
                  None (Some (TextContent text))).
Proof.
  intros Hlist Hin Hread.
  assert (Hpath : doc_path d = doc_file (doc_name d)).
  { unfold get_docs, get_docs_try in Hlist. rewrite foldl_visit in Hlist.
    assert (Hd : d ∈ map doc_of (List.filter is_markdown_file (yielded rd))
                 ∨ docs = []).
    { destruct (failure rd); simpl in Hlist; injection Hlist as <-; eauto. }
    destruct Hd as [Hd | ->]; [| apply elem_of_nil in Hin; destruct Hin].
    apply list_elem_of_In, in_map_iff in Hd as (entry & <- & _).
    reflexivity. }
  split; [exact Hpath |].
  unfold app, cors. simpl. unfold get_doc.
  rewrite <- Hpath, Hread. reflexivity.
Qed.

Lemma listed_document_is_fetched_witness :
  doc_path (Doc ".md" "./generated-docs/.md") = doc_file ".md"
  ∧ app (λ _, Returned "# Title") "GET" (GetDocRequest ".md") initial
    = (initial, Reply (<["Content-Type" := "text/markdown"]> (cors_headers ∅))
                      None (Some (TextContent "# Title"))).
Proof.
  apply (listed_document_is_fetched (λ _, Returned "# Title")
           (DirRead example_dir None)
           [ Doc "extraction-2025-01-01T10-00-00-000Z.md"
                 "./generated-docs/extraction-2025-01-01T10-00-00-000Z.md";
             Doc ".md" "./generated-docs/.md" ]
           (Doc ".md" "./generated-docs/.md") "# Title" initial).
  - vm_compute. reflexivity.
  - apply elem_of_cons. right. apply elem_of_cons. left. reflexivity.
  - reflexivity.
Defined.

(** * Properties of the agent module *)

(** ** Creating the agent *)

Lemma getRequiredEnv_spec (env : gmap string string) (var : string) :
  (∀ k, getRequiredEnv env var = Returned k ↔ env !! var = Some k ∧ k ≠ "")
  ∧ ((∀ k, getRequiredEnv env var ≠ Returned k) →
     getRequiredEnv env var
     = Raised (ErrorObj ("Environment variable " +:+ var +:+ " is not set"))).
Proof.
  unfold getRequiredEnv. destruct (env !! var) as [v |].
  - destruct (String.eqb_spec v "") as [-> | Hne].
    + split; [| reflexivity]. intros k. split; [discriminate |].
      intros [[= <-] Hk]. congruence.
    + split; [| intros H; exfalso; eapply H; reflexivity].
      intros k. split; [intros [= <-]; eauto | intros [[= <-] _]; reflexivity].
  - split; [| reflexivity]. intros k. split; [discriminate | intros [H _]; discriminate].
Qed.

(** X12. Creating the agent succeeds exactly when the context can be
    created and [ANTHROPIC_API_KEY] is set and not empty.  The Firecrawl
    server is optional: a missing [FIRECRAWL_API_KEY] or a failed
    registration never makes creation fail; it only leaves the agent
    without that server. *)
Theorem create_needs_model_key_only (env : gmap string string) (wd : string)
    (createZypherContext : string → string → outcome unit)
    (registerServer : string → outcome unit) :
  let made := DocsExtractorAgent_create env wd createZypherContext registerServer in
  ((∃ a, made = Returned a) ↔
     createZypherContext wd (zypher_dir env wd) = Returned ()
     ∧ ∃ k, env !! "ANTHROPIC_API_KEY" = Some k ∧ k ≠ "")
  ∧ (∀ a, made = Returned a →
       env !! "ANTHROPIC_API_KEY" = Some (apiKey a)
       ∧ zypherDir a = zypher_dir env wd
       ∧ (mcp_servers a = ["firecrawl"] ↔
            ∃ k, env !! "FIRECRAWL_API_KEY" = Some k ∧ k ≠ ""
                 ∧ registerServer k = Returned ())
       ∧ (mcp_servers a ≠ ["firecrawl"] → mcp_servers a = [])).
Proof.
  cbv zeta. unfold DocsExtractorAgent_create. fold (zypher_dir env wd).
  destruct (getRequiredEnv_spec env "ANTHROPIC_API_KEY") as [Hkey _].
  destruct (getRequiredEnv_spec env "FIRECRAWL_API_KEY") as [Hfire _].
  destruct (createZypherContext wd (zypher_dir env wd)) as [[] | e]; simpl.
  2: { split; [split; [intros [a H] | intros [H _]]; discriminate H
              | intros a H; discriminate H]. }
  destruct (getRequiredEnv env "ANTHROPIC_API_KEY") as [k |] eqn:Hk; simpl.
  2: { split; [split; [intros [a H]; discriminate H |]
              | intros a H; discriminate H].
       intros [_ (k & Hset & Hne)].
       assert (Hret : Raised e = Returned k) by (apply Hkey; eauto).
       discriminate Hret. }
  destruct (proj1 (Hkey k) eq_refl) as [Hset Hne].
  split; [split; eauto |].
  intros a [= <-]. simpl.
  split; [exact Hset |]. split; [reflexivity |].
  destruct (getRequiredEnv env "FIRECRAWL_API_KEY") as [f |] eqn:Hf; simpl.
  - destruct (proj1 (Hfire f) eq_refl) as [Hfset Hfne].
    destruct (registerServer f) as [[] | e'] eqn:Hreg.
    + split; [split; eauto | intros H; contradiction].
    + split; [| reflexivity]. split; [discriminate |].
      intros (f' & Hf' & _ & Hreg'). congruence.
  - split; [| reflexivity]. split; [discriminate |].
    intros (f' & Hf' & Hne' & _).
    assert (Hret : Raised e = Returned f') by (apply Hfire; eauto).
    discriminate Hret.
Qed.

Example create_without_firecrawl :
  DocsExtractorAgent_create
    (<["HOME" := ""]> (<["USERPROFILE" := "C:/Users/me"]> example_env))
    "/work" (λ _ _, Returned ()) (λ _, Returned ())
  = Returned (Agent "C:/Users/me/.zypher" "sk-ant-test" []).
Proof. vm_compute. reflexivity. Qed.

(** ** A submission without the key of the model provider *)



(** Without the key and with a context that cannot be made, the job shows
    the failure of the context, not the missing variable. *)
Example missing_key_and_context :
  get_job (run initial
             [PostExtract (Returned example_body) example_uuid;
              Resume 0 (create_settled
                          (DocsExtractorAgent_create ∅ "/work"
                             (λ _ _, Raised (NonError "EACCES"))
                             (λ _, Returned ())))])
          example_uuid
  = Response None (JobBody (Job failed None (Some "EACCES"))).
Proof. vm_compute. reflexivity. Qed.

(** ** Reading the events of the agent *)

Lemma append_empty_r s : s +:+ "" = s.
Proof.
  induction s as [| c s IH]; [reflexivity |].
  rewrite append_cons, IH. reflexivity.
Qed.

Lemma append_assoc s1 s2 s3 : (s1 +:+ s2) +:+ s3 = s1 +:+ (s2 +:+ s3).
Proof.
  induction s1 as [| c s1 IH]; [reflexivity |].
  rewrite !append_cons, IH. reflexivity.
Qed.

(** Induction on a value, with the elements of an array. *)
Lemma json_nested_ind (P : json → Prop) :
  P JNull → (∀ b, P (JBool b)) → (∀ d, P (JNum d)) → (∀ s, P (JStr s)) →
  (∀ items, Forall P items → P (JArr items)) →
  (∀ members, P (JObj members)) →
  ∀ v, P v.
Proof.
  intros Hnull Hbool Hnum Hstr Harr Hobj. fix IH 1.
  intros [| b | d | s | items | members];
    [exact Hnull | apply Hbool | apply Hnum | apply Hstr | | apply Hobj].
  apply Harr. induction items as [| x rest IHrest]; constructor;
    [apply IH | exact IHrest].
Qed.

Section Events.

Variable number_text : float → string.

(** A conversion that throws, throws the [TypeError] of a value without a
    primitive. *)
Lemma to_text_raises v e : to_text number_text v = Raised e → e = no_primitive.
Proof.
  revert e. induction v as [| b | d | s | items IH | members] using json_nested_ind;
    intros e; simpl; try discriminate.
  - destruct b; discriminate.
  - induction IH as [| x rest Hx _ IHrest]; simpl; [discriminate |].
    destruct (match x with JNull => mret "" | _ => to_text number_text x end)
      as [t | e'] eqn:Htext; simpl.
    + match goal with
      | |- context [mbind _ (?each rest)] => destruct (each rest) as [ts | e'']
      end; simpl; [discriminate |].
      intros [= <-]. apply IHrest. reflexivity.
    + intros [= <-]. destruct x; try discriminate Htext; exact (Hx _ Htext).
  - destruct (member "toString" members); [| discriminate].
    intros [= <-]. reflexivity.
Qed.

(** An event adds its own contribution to what was gathered before. *)
Lemma on_event_adds text uses e :
  on_event number_text (text, uses) e
  = match on_event number_text ("", []) e with
    | Returned (text', uses') => Returned (text +:+ text', uses ++ uses')
    | Raised x => Raised x
    end.
Proof.
  unfold on_event.
  repeat (case_match; cbn [mbind mret outcome_bind outcome_ret] in * );
    simplify_eq; rewrite ?append_empty_r, ?app_nil_r; try reflexivity.
  all: destruct (to_text number_text _);
    unfold mbind, mret, outcome_bind, outcome_ret in *; simplify_eq;
    rewrite ?app_nil_r; reflexivity.
Qed.

Lemma on_event_raises acc e x :
  on_event number_text acc e = Raised x → x = no_primitive.
Proof.
  destruct acc as [text uses]. unfold on_event.
  repeat case_match; simpl; try discriminate.
  all: destruct (to_text number_text _) eqn:Htext; simpl; [discriminate |].
  all: intros [= <-]; eapply to_text_raises, Htext.
Qed.

Lemma gather_from text uses events :
  gather number_text (text, uses) events
  = match gather number_text ("", []) events with
    | Returned (text', uses') => Returned (text +:+ text', uses ++ uses')
    | Raised x => Raised x
    end.
Proof.
  revert text uses.
  induction events as [| e events IH]; intros text uses; cbn [gather].
  - simpl. rewrite append_empty_r, app_nil_r. reflexivity.
  - rewrite on_event_adds.
    destruct (on_event number_text ("", []) e) as [[text' uses'] | x]; simpl;
      [| reflexivity].
    rewrite IH, (IH text' uses').
    destruct (gather number_text ("", []) events) as [[text'' uses''] | x];
      [| reflexivity].
    rewrite append_assoc, <- app_assoc. reflexivity.
Qed.

Lemma gather_app acc first second :
  gather number_text acc (first ++ second)
  = match gather number_text acc first with
    | Returned acc' => gather number_text acc' second
    | Raised x => Raised x
    end.
Proof.
  revert acc. induction first as [| e first IH]; intros acc; [reflexivity |].
  change ((e :: first) ++ second) with (e :: (first ++ second)).
  cbn [gather]. destruct (on_event number_text acc e); simpl;
    [apply IH | reflexivity].
Qed.

Lemma gather_raises acc events x :
  gather number_text acc events = Raised x → x = no_primitive.
Proof.
  revert acc. induction events as [| e events IH]; intros acc;
    cbn [gather]; [discriminate |].
  destruct (on_event number_text acc e) as [acc' | x'] eqn:He; simpl.
  - apply IH.
  - intros [= <-]. eapply on_event_raises, He.
Qed.

Lemma read_events_cons e events :
  read_events number_text (e :: events)
  = match on_event number_text ("", []) e with
    | Returned (text, uses) =>
        match read_events number_text events with
        | Returned (text', uses') => Returned (text +:+ text', uses ++ uses')
        | Raised x => Raised x
        end
    | Raised x => Raised x
    end.
Proof.
  unfold read_events. cbn [gather].
  destruct (on_event number_text ("", []) e) as [[text uses] | x]; simpl;
    [apply gather_from | reflexivity].
Qed.

(** X14. What [extract] gathers from a stream is gathered piece by piece,
    in stream order: for a stream cut in two, the response text is the
    text of the first part followed by the text of the second, and the
    tool uses are those of the first part followed by those of the
    second.  When reading a part throws, reading the whole throws the
    same, the first part coming first. *)
Theorem read_events_app (first second : list agent_event) :
  read_events number_text (first ++ second)
  = match read_events number_text first, read_events number_text second with
    | Returned (text1, uses1), Returned (text2, uses2) =>
        Returned (text1 +:+ text2, uses1 ++ uses2)
    | Returned _, Raised x => Raised x
    | Raised x, _ => Raised x
    end.
Proof.
  unfold read_events. rewrite gather_app.
  destruct (gather number_text ("", []) first) as [[text1 uses1] | x];
    [| reflexivity].
  rewrite gather_from.
  destruct (gather number_text ("", []) second) as [[text2 uses2] | x];
    reflexivity.
Qed.

(** What an event contributes, by its kind: a text event no tool use, a
    tool event no text and no exception, any other event nothing. *)
Lemma event_by_kind e :
  match is_text_event e, is_tool_event e with
  | true, true => False
  | true, false =>
      match on_event number_text ("", []) e with
      | Returned (_, uses) => uses = []
      | Raised _ => True
      end
  | false, true => ∃ uses, on_event number_text ("", []) e = Returned ("", uses)
  | false, false => on_event number_text ("", []) e = Returned ("", [])
  end.
Proof.
  unfold is_text_event, is_tool_event, type_in, on_event.
  destruct (e_type e) as [[| | | t | |] |]; try reflexivity.
  simpl. rewrite !orb_false_r.
  destruct (String.eqb_spec t "text") as [-> | Htext].
  { simpl. destruct (prop (e_content e) "text") as [v |];
      [match goal with |- context [if ?c then _ else _] => destruct c end;
       [destruct (to_text number_text v); simpl; [reflexivity | exact I] |] |];
      destruct (e_content e) as [[] |]; reflexivity. }
  destruct (String.eqb_spec t "message") as [-> | Hmessage].
  { simpl. destruct (prop (e_content e) "text") as [v |];
      [match goal with |- context [if ?c then _ else _] => destruct c end;
       [destruct (to_text number_text v); simpl; [reflexivity | exact I] |] |];
      destruct (e_content e) as [[] |]; reflexivity. }
  simpl.
  destruct (String.eqb t "tool_use" || String.eqb t "tool_use_input");
    [| reflexivity].
  repeat case_match; eauto.
Qed.

(** X15. The response text depends only on the events of type [text] and
    [message], and the tool uses only on the events of type [tool_use] and
    [tool_use_input]: dropping every other event from the stream, such as
    the tool results, changes neither.  The tool events alone never throw
    and give no text; the text events alone give no tool use, and throw
    exactly when the whole stream does. *)
Theorem read_events_by_kind (events : list agent_event) :
  (∃ uses, read_events number_text (List.filter is_tool_event events)
           = Returned ("", uses))
  ∧ match read_events number_text events with
    | Returned (text, uses) =>
        read_events number_text (List.filter is_text_event events)
        = Returned (text, [])
        ∧ read_events number_text (List.filter is_tool_event events)
          = Returned ("", uses)
    | Raised x =>
        read_events number_text (List.filter is_text_event events) = Raised x
    end.
Proof.
  induction events as [| e events [[tools IHtools] IH]].
  { split; [exists [] |]; repeat split; reflexivity. }
  pose proof (event_by_kind e) as He.
  rewrite read_events_cons. cbn [List.filter].
  destruct (is_text_event e), (is_tool_event e); try contradiction.
  - (* a text event *)
    split; [exists tools; exact IHtools |].
    rewrite read_events_cons.
    destruct (on_event number_text ("", []) e) as [[text uses] | x];
      [subst uses | reflexivity].
    destruct (read_events number_text events) as [[text' uses'] | x].
    + destruct IH as [-> IHuses]. split; [reflexivity | exact IHuses].
    + rewrite IH. reflexivity.
  - (* a tool event *)
    destruct He as [uses He]. rewrite He.
    rewrite read_events_cons, He, IHtools.
    split; [eexists; reflexivity |].
    destruct (read_events number_text events) as [[text' uses'] | x];
      [| exact IH].
    destruct IH as [IHtext IHuses]. split; [exact IHtext |].
    rewrite IHtools in IHuses. injection IHuses as ->. reflexivity.
  - (* any other event *)
    rewrite He. split; [exists tools; exact IHtools |].
    destruct (read_events number_text events) as [[text' uses'] | x];
      exact IH.
Qed.

End Events.

Example read_events_example :
  read_events no_numbers (emitted example_stream)
  = Returned
      ("# Title and more",
       [ToolUse (Some (JStr "firecrawl_scrape"))
                (Some (JObj [("url", JStr "https://example.com")]))]).
Proof. vm_compute. reflexivity. Qed.

(** A text that is an object with a member [toString] of its own cannot
    be appended: reading the stream throws at that event, whatever was
    gathered before. *)
Example read_events_unprintable_text :
  read_events no_numbers (emitted unprintable_stream) = Raised no_primitive.
Proof. vm_compute. reflexivity. Qed.

(** ** Saving the extraction *)





Lemma save_name_listed now : ends_with (save_name now) ".md" = true.
Proof.
  apply ends_with_spec. exists ("extraction-" +:+ dashed now).
  unfold save_name. symmetry. apply append_assoc.
Qed.

Section Extraction.

Variable number_text : float → string.

Lemma save_writes w now text :
  save w now text
  = if String.eqb text "" then []
    else [("./generated-docs/" +:+ save_name now, text)].
Proof.
  unfold save. destruct (String.eqb text ""); [reflexivity |].
  destruct (w _ text); reflexivity.
Qed.

(** [extract], step by step: the prompt, the loop, the end of the stream,
    then the result and the write. *)
Lemma extract_unfold docsUrl extractionType model runTask now w :
  extract number_text docsUrl extractionType model runTask now w
  = match user_prompt number_text docsUrl extractionType with
    | Raised e => (Raised e, [])
    | Returned prompt =>
        match read_events number_text (emitted (runTask prompt model)) with
        | Raised e => (Raised e, [])
        | Returned (text, uses) =>
            match stream_failure (runTask prompt model) with
            | Some e => (Raised e, [])
            | None =>
                (Returned (extract_result text uses),
                 if String.eqb text "" then []
                 else [("./generated-docs/" +:+ save_name now, text)])
            end
        end
    end.
Proof.
  unfold extract, read_events.
  destruct (user_prompt number_text docsUrl extractionType) as [prompt | e];
    [| reflexivity].
  cbv zeta.
  destruct (gather number_text ("", []) (emitted (runTask prompt model)))
    as [[text uses] | e]; [| reflexivity].
  destruct (stream_failure (runTask prompt model)); [reflexivity |].
  rewrite save_writes. reflexivity.
Qed.


Lemma user_prompt_raises docsUrl extractionType e :
  user_prompt number_text docsUrl extractionType = Raised e → e = no_primitive.
Proof.
  unfold user_prompt, template_text.
  destruct docsUrl as [u |]; simpl.
  - destruct (to_text number_text u) eqn:Hu; simpl.
    + destruct extractionType as [x |]; simpl; [| discriminate].
      destruct (to_text number_text x) eqn:Hx; simpl; [discriminate |].
      intros [= <-]. eapply to_text_raises, Hx.
    + intros [= <-]. eapply to_text_raises, Hu.
  - destruct extractionType as [x |]; simpl; [| discriminate].
    destruct (to_text number_text x) eqn:Hx; simpl; [discriminate |].
    intros [= <-]. eapply to_text_raises, Hx.
Qed.

(** X17. When [extract] writes a file, it writes exactly one: the whole
    response text, which is not empty and is the text its result carries,
    to the path of its save name.  That name ends in [.md], so once the
    directory shows it as a file the listing reports it, with the very
    path that was written, which is also the file the fetch route reads
    for that name. *)
Theorem saved_extraction_is_listed (docsUrl extractionType : jsval)
    (model : string) (runTask : string → string → event_stream) (now : string)
    (w : string → string → outcome unit) (path text : string) :
  let done := extract number_text docsUrl extractionType model runTask now w in
  (path, text) ∈ done.2 →
  done.2 = [(path, text)]
  ∧ text ≠ ""
  ∧ (∃ prompt uses,
       user_prompt number_text docsUrl extractionType = Returned prompt
       ∧ read_events number_text (emitted (runTask prompt model))
         = Returned (text, uses)
       ∧ stream_failure (runTask prompt model) = None
       ∧ done.1 = Returned (extract_result text uses))
  ∧ path = doc_file (save_name now)
  ∧ ∀ entries entry,
      entry ∈ entries → name entry = save_name now → isFile entry = true →
      ∃ docs, get_docs (DirRead entries None) = Response None (DocsBody docs)
              ∧ Doc (save_name now) path ∈ docs.
Proof.
  cbv zeta. rewrite extract_unfold.
  destruct (user_prompt number_text docsUrl extractionType) as [prompt | e];
    [| intros H; apply elem_of_nil in H; destruct H].
  destruct (read_events number_text (emitted (runTask prompt model)))
    as [[gathered uses] | e] eqn:Hread;
    [| intros H; apply elem_of_nil in H; destruct H].
  destruct (stream_failure (runTask prompt model)) as [e |] eqn:Hend;
    [intros H; apply elem_of_nil in H; destruct H |].
  cbn [fst snd].
  destruct (String.eqb_spec gathered "") as [Hempty | Hfull];
    [intros H; apply elem_of_nil in H; destruct H |].
  intros [= -> ->]%list_elem_of_singleton.
  split; [reflexivity |]. split; [exact Hfull |].
  split; [exists prompt, uses; split; [reflexivity |]; split; [exact Hread |];
          split; [exact Hend | reflexivity] |].
  split; [reflexivity |].
  intros entries entry Hin Hname Hfile.
  eexists. split.
  - unfold get_docs, get_docs_try. simpl. rewrite foldl_visit. reflexivity.
  - simpl. apply list_elem_of_In, in_map_iff. exists entry. split.
    + unfold doc_of. rewrite Hname. reflexivity.
    + apply filter_In. split; [apply list_elem_of_In, Hin |].
      unfold is_markdown_file. rewrite Hfile, Hname. apply save_name_listed.
Qed.

(** X18. [extract] attempts no write exactly when it throws or the text it
    gathered is empty: an extraction that gathered no text leaves no file
    behind, and one that fails half way saves nothing of what it had
    gathered.  It throws exactly when one of the two submitted values has
    no conversion to a string for the prompt, when a text of the stream
    has none as it is appended, or when the stream fails after its events
    were read; the first two are the [TypeError] of the conversion.  It
    returns exactly when the prompt is made, the events are read and the
    stream ends, and then its result is built from the text and the tool
    uses gathered. *)
Theorem extract_writes_nothing (docsUrl extractionType : jsval)
    (model : string) (runTask : string → string → event_stream) (now : string)
    (w : string → string → outcome unit) :
  let done := extract number_text docsUrl extractionType model runTask now w in
  let prompted := user_prompt number_text docsUrl extractionType in
  let read prompt := read_events number_text (emitted (runTask prompt model)) in
  (done.2 = [] ↔
     (∃ e, done.1 = Raised e)
     ∨ ∃ prompt uses, prompted = Returned prompt
                      ∧ read prompt = Returned ("", uses))
  ∧ (∀ e, done.1 = Raised e ↔
       prompted = Raised e
       ∨ ∃ prompt, prompted = Returned prompt
           ∧ (read prompt = Raised e
              ∨ (∃ gathered, read prompt = Returned gathered)
                ∧ stream_failure (runTask prompt model) = Some e))
  ∧ (∀ e, prompted = Raised e
          ∨ (∃ prompt, prompted = Returned prompt ∧ read prompt = Raised e) →
          e = ErrorObj "Cannot convert object to primitive value")
  ∧ (∀ r, done.1 = Returned r ↔
       ∃ prompt text uses,
         prompted = Returned prompt
         ∧ read prompt = Returned (text, uses)
         ∧ stream_failure (runTask prompt model) = None
         ∧ r = extract_result text uses).
Proof.
  cbv zeta. split; [| split; [| split]].
  - rewrite extract_unfold.
    destruct (user_prompt number_text docsUrl extractionType) as [prompt | e];
      [| split; [intros _; left; eauto | reflexivity]].
    destruct (read_events number_text (emitted (runTask prompt model)))
      as [[text uses] | e] eqn:Hread;
      [| split; [intros _; left; eauto | reflexivity]].
    destruct (stream_failure (runTask prompt model)) as [e |];
      [split; [intros _; left; eauto | reflexivity] |].
    cbn [fst snd]. destruct (String.eqb_spec text "") as [-> | Hfull].
    + split; [intros _; right; exists prompt, uses; eauto | reflexivity].
    + split; [discriminate |].
      intros [[e He] | (prompt' & uses' & [= <-] & Hread')];
        [discriminate | congruence].
  - intros e. rewrite extract_unfold.
    destruct (user_prompt number_text docsUrl extractionType) as [prompt | e'];
      [| cbn [fst]; split;
         [intros [= ->]; left; reflexivity
         | intros [H | (prompt & H & _)]; [congruence | discriminate]]].
    destruct (read_events number_text (emitted (runTask prompt model)))
      as [[text uses] | e'] eqn:Hread.
    + destruct (stream_failure (runTask prompt model)) as [e' |] eqn:Hend;
        cbn [fst].
      * split.
        -- intros [= ->]. right. exists prompt. split; [reflexivity |].
           right. rewrite Hread, Hend. eauto.
        -- intros [H | (prompt' & [= <-] & [H | [_ H]])];
             congruence.
      * split; [discriminate |].
        intros [H | (prompt' & [= <-] & [H | [_ H]])]; congruence.
    + cbn [fst]. split.
      * intros [= ->]. right. exists prompt. split; [reflexivity |].
        left. exact Hread.
      * intros [H | (prompt' & [= <-] & [H | [[g Hg] _]])]; congruence.
  - intros e [H | (prompt & _ & H)].
    + eapply user_prompt_raises, H.
    + eapply gather_raises, H.
  - intros r. rewrite extract_unfold.
    destruct (user_prompt number_text docsUrl extractionType) as [prompt | e'];
      [| cbn [fst]; split; [discriminate | intros (? & ? & ? & H & _);
                            discriminate H]].
    destruct (read_events number_text (emitted (runTask prompt model)))
      as [[text uses] | e'] eqn:Hread.
    + destruct (stream_failure (runTask prompt model)) as [e' |] eqn:Hend;
        cbn [fst].
      * split; [discriminate |].
        intros (prompt' & text' & uses' & [= <-] & _ & H & _). congruence.
      * split.
        -- intros [= <-]. exists prompt, text, uses.
           rewrite Hread, Hend. repeat split; reflexivity.
        -- intros (prompt' & text' & uses' & [= <-] & H & _ & ->).
           congruence.
    + cbn [fst]. split; [discriminate |].
      intros (prompt' & text' & uses' & [= <-] & H & _). congruence.
Qed.



End Extraction.

Lemma saved_extraction_is_listed_witness :
  (extract no_numbers (Some (JStr "https://example.com"))
           (Some (JStr "overview")) MODEL (λ _ _, example_stream)
           "2025-01-01T10:00:00.000Z"
           (λ _ _, Raised (ErrorObj "No such file or directory"))).2
  = [("./generated-docs/extraction-2025-01-01T10-00-00-000Z.md",
      "# Title and more")]
  ∧ "# Title and more" ≠ ""
  ∧ (∃ prompt uses,
       user_prompt no_numbers (Some (JStr "https://example.com"))
                   (Some (JStr "overview")) = Returned prompt
       ∧ read_events no_numbers (emitted example_stream)
         = Returned ("# Title and more", uses)
       ∧ stream_failure example_stream = None
       ∧ (extract no_numbers (Some (JStr "https://example.com"))
                  (Some (JStr "overview")) MODEL (λ _ _, example_stream)
                  "2025-01-01T10:00:00.000Z"
                  (λ _ _, Raised (ErrorObj "No such file or directory"))).1
         = Returned (extract_result "# Title and more" uses))
  ∧ "./generated-docs/extraction-2025-01-01T10-00-00-000Z.md"
    = doc_file (save_name "2025-01-01T10:00:00.000Z")
  ∧ ∀ entries entry,
      entry ∈ entries →
      name entry = save_name "2025-01-01T10:00:00.000Z" →
      isFile entry = true →
      ∃ docs, get_docs (DirRead entries None) = Response None (DocsBody docs)
              ∧ Doc (save_name "2025-01-01T10:00:00.000Z")
                    "./generated-docs/extraction-2025-01-01T10-00-00-000Z.md"
                ∈ docs.
Proof.
  apply (saved_extraction_is_listed no_numbers
           (Some (JStr "https://example.com")) (Some (JStr "overview"))
           MODEL (λ _ _, example_stream) "2025-01-01T10:00:00.000Z"
           (λ _ _, Raised (ErrorObj "No such file or directory"))
           "./generated-docs/extraction-2025-01-01T10-00-00-000Z.md"
           "# Title and more").
  vm_compute. apply elem_of_cons. left. reflexivity.
Defined.


(** The same submission with a stream that ends well. *)
Example job_record_completed :
  get_job (run initial
             [PostExtract (Returned example_body) example_uuid;
              Resume 0 (CreateSettled (Returned ()));
              Resume 0 (ExtractSettled
                          (extract no_numbers
                             (get_field example_body "docsUrl")
                             (get_field example_body "extractionType")
                             MODEL (λ _ _, example_stream)
                             "2025-01-01T10:00:00.000Z"
                             (λ _ _, Raised (ErrorObj "disk full"))).1)])
          example_uuid
  = Response None
      (JobBody (Job completed
                  (Some (extract_result "# Title and more"
                           [ToolUse (Some (JStr "firecrawl_scrape"))
                              (Some (JObj [("url", JStr "https://example.com")]))]))
                  None)).
Proof. vm_compute. reflexivity. Qed.

(** A submitted value that is an object with a member [toString] of its
    own passes the check of the handler, and makes [extract] throw before
    the agent is asked anything. *)
Example unprintable_submission :
  let b := JObj [("docsUrl", JObj [("toString", JStr "x")]);
                 ("extractionType", JStr "overview")] in
  accepted (Returned b) = true
  ∧ get_job (run initial
               [PostExtract (Returned b) example_uuid;
                Resume 0 (CreateSettled (Returned ()));
                Resume 0 (ExtractSettled
                            (extract no_numbers (get_field b "docsUrl")
                               (get_field b "extractionType")
                               MODEL (λ _ _, example_stream)
                               "2025-01-01T10:00:00.000Z"
                               (λ _ _, Returned ())).1)])
            example_uuid
    = Response None
        (JobBody (Job failed None
                    (Some "Cannot convert object to primitive value"))).
Proof. vm_compute. split; reflexivity. Qed.

(** * The client against the server *)

Lemma wire_docs (docs : list doc) :
  map wire (map doc_json docs) = map doc_json docs.
Proof. induction docs as [| d docs IH]; simpl; [| rewrite IH]; reflexivity. Qed.

(** Every answer of the listing is a list of documents, empty when the
    read failed. *)
Lemma list_docs_readout (rd : dir_read) :
  ∃ docs, get_docs rd = Response None (DocsBody docs)
          ∧ (is_Some (failure rd) → docs = []).
Proof.
  unfold get_docs, get_docs_try. destruct (failure rd) as [e |]; simpl.
  - exists []. split; [reflexivity | reflexivity].
  - eexists. split; [reflexivity |]. intros [x Hx]. discriminate Hx.
Qed.

Section ClientProperties.

Variable number_text : float → string.
Variable null_read_message : string → string.

Lemma poll_completed (text : string) (uses : list tool_use) :
  poll_tick number_text
    (Returned (received (Response None
       (JobBody (Job completed (Some (extract_result text uses)) None)))))
  = [ClearInterval; SetLoading false; SetResult (Some (JStr text));
     SetJobId (Some JNull); LoadGeneratedDocs].
Proof. unfold poll_tick, received. simpl. unfold join. reflexivity. Qed.


(** X20. The result of an extraction, once it is the record of a
    completed job, comes back whole in the browser: polling that job stops
    the polling, clears the loading state and shows exactly the response
    text that [extract] gathered, then reloads the list of documents. *)
Theorem completed_job_shows_text (srv : server) (id : string) (text : string)
    (uses : list tool_use) :
  jobs srv !! id = Some (Job completed (Some (extract_result text uses)) None) →
  poll_tick number_text (Returned (received (get_job srv id)))
  = [ClearInterval; SetLoading false; SetResult (Some (JStr text));
     SetJobId (Some JNull); LoadGeneratedDocs].
Proof.
  intros Hjob. apply get_job_record in Hjob. rewrite Hjob.
  apply poll_completed.
Qed.

(** X21. Polling a job that is still processing, or an identifier the
    server does not know (its answer is then the 404 error object), makes
    no call at all: the client neither stops polling nor reports an error.
    Polling a failed job stops the polling, clears the loading state and
    shows the stored error, or "Extraction failed" when that text is
    empty. *)
Theorem poll_by_status (srv : server) (id : string) :
  match jobs srv !! id with
  | None => poll_tick number_text (Returned (received (get_job srv id))) = []
  | Some j =>
      match status j with
      | processing =>
          poll_tick number_text (Returned (received (get_job srv id))) = []
      | failed =>
          poll_tick number_text (Returned (received (get_job srv id)))
          = [ClearInterval; SetLoading false;
             SetError (Some (JStr match error j with
                                  | Some "" | None => "Extraction failed"
                                  | Some message => message
                                  end));
             SetJobId (Some JNull)]
      | completed => True
      end
  end.
Proof.
  unfold get_job, get. destruct (jobs srv !! id) as [[st r e] |];
    [| reflexivity].
  destruct st; simpl; [| exact I |];
    destruct r as [r |], e as [[| c e] |]; reflexivity.
Qed.

(** X22. The form against the server.  When both fields of the form are
    filled, the server registers the job and the client keeps the loading
    state and takes the identifier the server generated.  When one is
    empty, the server registers nothing and the client clears the loading
    state and shows "Failed to start extraction". *)
Theorem form_submission (srv : server) (docsUrl extractionType uuid : string) :
  let srv' := (post_extract srv (Returned (submit_body docsUrl extractionType)) uuid).1 in
  let r := (post_extract srv (Returned (submit_body docsUrl extractionType)) uuid).2 in
  let calls := handleSubmit null_read_message
                 (Returned (status_code r, Returned (received r))) in
  if negb (String.eqb docsUrl "") && negb (String.eqb extractionType "")
  then
    jobs srv' !! uuid = Some (Job processing None None)
    ∧ calls = [SetLoading true; SetError (Some JNull); SetResult (Some JNull);
               SetJobId (Some (JStr uuid))]
  else
    srv' = srv
    ∧ calls = [SetLoading true; SetError (Some JNull); SetResult (Some JNull);
               SetLoading false;
               SetError (Some (JStr "Failed to start extraction"))].
Proof.
  cbv zeta.
  destruct (negb (String.eqb docsUrl "")) eqn:Hu;
    [destruct (negb (String.eqb extractionType "")) eqn:Hx |]; simpl.
  - rewrite post_extract_accepted by (simpl; assumption).
    split; [apply lookup_insert_eq | reflexivity].
  - rewrite post_extract_rejected; [| discriminate | right; simpl; assumption].
    split; reflexivity.
  - rewrite post_extract_rejected; [| discriminate | left; simpl; assumption].
    split; reflexivity.
Qed.

(** X23. The list of documents in the browser is the list the server
    sends, document for document.  A failed read of the directory and an
    empty directory look the same to the client: both set the empty list. *)
Theorem client_lists_server_documents (rd : dir_read) :
  ∃ docs,
    get_docs rd = Response None (DocsBody docs)
    ∧ loadGeneratedDocs (Returned (received (get_docs rd)))
      = [SetGeneratedDocs (Some (JArr (map doc_json docs)))]
    ∧ (is_Some (failure rd) → docs = []).
Proof.
  destruct (list_docs_readout rd) as (docs & Hdocs & Hfail).
  exists docs. rewrite Hdocs. split; [reflexivity |]. split; [| exact Hfail].
  unfold received, loadGeneratedDocs. simpl. rewrite wire_docs. reflexivity.
Qed.


End ClientProperties.

Lemma completed_job_shows_text_witness :
  poll_tick no_numbers
    (Returned (received
       (get_job (Server {[ example_uuid :=
                             Job completed
                               (Some (extract_result "# Title and more" []))
                               None ]} [])
                example_uuid)))
  = [ClearInterval; SetLoading false; SetResult (Some (JStr "# Title and more"));
     SetJobId (Some JNull); LoadGeneratedDocs].
Proof.
  apply (completed_job_shows_text no_numbers
           (Server {[ example_uuid :=
                        Job completed
                          (Some (extract_result "# Title and more" []))
                          None ]} [])
           example_uuid "# Title and more" []).
  apply lookup_singleton_eq.
Defined.


(** The same form with a stream that ends well, and with a stream one
    text of which cannot be appended. *)
Example form_to_page_text :
  poll_tick no_numbers
    (Returned (received
       (get_job
          (run initial
             [PostExtract (Returned (submit_body "https://example.com" "overview"))
                          example_uuid;
              Resume 0 (CreateSettled (Returned ()));
              Resume 0 (ExtractSettled
                          (extract no_numbers (Some (JStr "https://example.com"))
                             (Some (JStr "overview"))
                             MODEL (λ _ _, example_stream)
                             "2025-01-01T10:00:00.000Z"
                             (λ _ _, Raised (ErrorObj "disk full"))).1)])
          example_uuid)))
  = [ClearInterval; SetLoading false; SetResult (Some (JStr "# Title and more"));
     SetJobId (Some JNull); LoadGeneratedDocs].
Proof. vm_compute. reflexivity. Qed.

Example form_to_page_unprintable_text :
  poll_tick no_numbers
    (Returned (received
       (get_job
          (run initial
             [PostExtract (Returned (submit_body "https://example.com" "overview"))
                          example_uuid;
              Resume 0 (CreateSettled (Returned ()));
              Resume 0 (ExtractSettled
                          (extract no_numbers (Some (JStr "https://example.com"))
                             (Some (JStr "overview"))
                             MODEL (λ _ _, unprintable_stream)
                             "2025-01-01T10:00:00.000Z"
                             (λ _ _, Returned ())).1)])
          example_uuid)))
  = [ClearInterval; SetLoading false;
     SetError (Some (JStr "Cannot convert object to primitive value"));
     SetJobId (Some JNull)].
Proof. vm_compute. reflexivity. Qed.
